(** * challenge-su: hexadecimal codec and challenge-response session

    A shallow embedding of [su/jni/hexadecimal.cc] and [su/jni/su.cc].

    Bytes and characters are integers ([Z]); every conversion to the C
    type [byte] (unsigned char) is written out as [to_byte].  Buffers are
    lists.  System calls are answered by a [World] (an oracle for the
    environment of one process run) and logged, with their results, in a
    trace of [event]s; [exit] and a successful [execlp] stop the run. *)

From Stdlib Require Import ZArith String Ascii List Bool Lia.
Import ListNotations.

Local Open Scope Z_scope.

(* ================================================================== *)
(** * hexadecimal.cc                                                   *)
(* ================================================================== *)

Module Hexadecimal.

(** [typedef unsigned char byte;] -- storing an [int] into a [byte]. *)
Definition to_byte (z : Z) : Z := z mod 256.

Definition is_byte (z : Z) : Prop := 0 <= z < 256.

(** Code unit of a character literal. *)
Definition chr (a : ascii) : Z := Z.of_N (N_of_ascii a).

Fixpoint chars (s : string) : list Z :=
  match s with
  | EmptyString => []
  | String a s' => chr a :: chars s'
  end.

(** [const half bad = 0;] *)
Definition bad : Z := 0.

(** (hex-digit & 0x1f) -> numeric nibble *)
Definition decoded_hex_table : list Z :=
  [ bad; 0xA; 0xB; 0xC; 0xD; 0xE; 0xF; bad;
    bad; bad; bad; bad; bad; bad; bad; bad;
    0x0; 0x1; 0x2; 0x3; 0x4; 0x5; 0x6; 0x7;
    0x8; 0x9; bad; bad; bad; bad; bad; bad ].

(** (nibble & 0x0f) -> ASCII hex digit *)
Definition encoded_hex_table : list Z := chars "0123456789abcdef".

(** [return decoded_hex_table[ c & 0x1f ];]  The index only depends on
    the five low bits of [c], so the signedness of [char] is immaterial. *)
Definition decoded_hex_digit (c : Z) : Z :=
  nth (Z.to_nat (Z.land c 0x1f)) decoded_hex_table bad.

(** [return encoded_hex_table[ d & 0x0f ];] *)
Definition encoded_hex_char (d : Z) : Z :=
  nth (Z.to_nat (Z.land d 0x0f)) encoded_hex_table 0.

(** [hexpcpy_lower( out, in, n )]: the bytes written to [out], or [None]
    when the loop would read past the end of [inp]. *)
Fixpoint hexpcpy_lower (inp : list Z) (n : nat) {struct n} : option (list Z) :=
  match n with
  | O => Some []
  | S n' =>
      match inp with
      | [] => None
      | c :: p =>
          match hexpcpy_lower p n' with
          | None => None
          | Some out =>
              Some (encoded_hex_char (to_byte (Z.shiftr c 4))
                    :: encoded_hex_char (to_byte (Z.shiftr c 0))
                    :: out)
          end
      end
  end.

(** [unhexpcpy( out, in, n )]: the [n] bytes written to [out], or [None]
    when the loop would read past the end of [inp]. *)
Fixpoint unhexpcpy (inp : list Z) (n : nat) {struct n} : option (list Z) :=
  match n with
  | O => Some []
  | S n' =>
      match inp with
      | c1 :: c2 :: p =>
          let h := to_byte (Z.shiftl (decoded_hex_digit c1) 4) in
          let l := to_byte (Z.shiftl (decoded_hex_digit c2) 0) in
          match unhexpcpy p n' with
          | None => None
          | Some out => Some (to_byte (Z.lor h l) :: out)
          end
      | _ => None
      end
  end.

(** ** Vocabulary of the specification *)

Definition is_digit (c : Z) : bool := (chr "0" <=? c) && (c <=? chr "9").
Definition is_lower_hex_letter (c : Z) : bool := (chr "a" <=? c) && (c <=? chr "f").
Definition is_upper_hex_letter (c : Z) : bool := (chr "A" <=? c) && (c <=? chr "F").

(** The hexadecimal alphabet: 0-9, a-f, A-F. *)
Definition is_hex_char (c : Z) : bool :=
  is_digit c || is_lower_hex_letter c || is_upper_hex_letter c.

(** The alphabet produced by the encoder: 0-9, a-f. *)
Definition is_lower_hex_char (c : Z) : bool :=
  is_digit c || is_lower_hex_letter c.

(** ASCII case mapping of one character. *)
Definition to_upper (c : Z) : Z :=
  if (chr "a" <=? c) && (c <=? chr "z") then c - 32 else c.

Definition to_lower (c : Z) : Z :=
  if (chr "A" <=? c) && (c <=? chr "Z") then c + 32 else c.

(** The numeric value of a hexadecimal digit. *)
Definition hex_value (c : Z) : Z :=
  if is_digit c then c - chr "0"
  else if is_lower_hex_letter c then c - chr "a" + 10
  else if is_upper_hex_letter c then c - chr "A" + 10
  else 0.

(** Indices of the decoding table that hold [bad] or the digit zero. *)
Definition zero_slot (i : Z) : bool :=
  (i =? 0) || ((7 <=? i) && (i <=? 16)) || ((26 <=? i) && (i <=? 31)).

(** The codec as the specification names it: [encode_lower] encodes all
    of its input, [decode] one byte per pair of characters. *)
Definition encode_lower (b : list Z) : option (list Z) :=
  hexpcpy_lower b (length b).

Definition decode (text : list Z) : option (list Z) :=
  unhexpcpy text (Nat.div2 (length text)).

(** The reading "every character outside the hexadecimal alphabet decodes
    to nibble 0". *)
Definition nonhex_decodes_to_zero : Prop :=
  forall c : Z, is_byte c -> is_hex_char c = false -> decoded_hex_digit c = 0.

End Hexadecimal.

(* ================================================================== *)
(** * su.cc                                                            *)
(* ================================================================== *)

Module Su.
Import Hexadecimal.

(** ** Constants *)

Definition PROGRAM : string := "su".

Definition PUBLIC_KEY_PATH : string := "/etc/su/public_key".
Definition RANDOM_PATH     : string := "/dev/urandom".
Definition SHELL_PATH      : string := "/system/bin/sh".

Definition n_random_bytes : Z := 28.

(** [sizeof (uint32_t) + n_random_bytes] *)
Definition challenge_size : Z := 4 + n_random_bytes.

(** [char challenge_hex[ challenge_size * 2 + 1 ];] *)
Definition sizeof_challenge_hex : Z := challenge_size * 2 + 1.

(** [sizeof (ed25519_public_key)] in ed25519-donna: [unsigned char[32]]. *)
Definition sizeof_public_key : Z := 32.

(** <unistd.h>, <errno.h> (Linux values) and the line feed. *)
Definition STDIN_FILENO  : Z := 0.
Definition STDOUT_FILENO : Z := 1.
Definition STDERR_FILENO : Z := 2.
Definition ENOENT : Z := 2.
Definition EBADF  : Z := 9.
Definition LF : Z := 10.

(** [(uint32_t) x] *)
Definition to_u32 (x : Z) : Z := x mod 2 ^ 32.

(** The four bytes of a [uint32_t] object in memory, in the byte order of
    the machine. *)
Definition native_u32 (big_endian : bool) (x : Z) : list Z :=
  let b (i : Z) := Z.land (Z.shiftr x (8 * i)) 0xff in
  if big_endian then [b 3; b 2; b 1; b 0] else [b 0; b 1; b 2; b 3].

(** Reading such an object back. *)
Definition u32_of_native (big_endian : bool) (bs : list Z) : Z :=
  match (if big_endian then rev bs else bs) with
  | [b0; b1; b2; b3] => b0 + 2 ^ 8 * b1 + 2 ^ 16 * b2 + 2 ^ 24 * b3
  | _ => 0
  end.

(** ** The environment of one run *)

(** What a file descriptor refers to. *)
Inductive source : Type :=
| Stdin
| File (path : string).

(** Result of a system call that either fails with an [errno] or gives a
    value. *)
Inductive sys (A : Type) : Type :=
| Fails (err : Z)
| Gives (a : A).
Arguments Fails {A} err.
Arguments Gives {A} a.

(** The answers of the operating system and of ed25519-donna.  [w_read]
    gives the bytes the source has ready for one [read]; [w_sign_open] is
    [ed25519_sign_open( m, mlen, pk, RS )] on the [mlen] bytes of [m],
    returning 0 exactly when the signature is accepted; [w_execlp]
    answers [None] when the process image is replaced. *)
Record World : Type := {
  w_big_endian : bool;
  w_strerror   : Z -> list Z;
  w_time       : Z;
  w_geteuid    : Z;
  w_getuid     : Z;
  w_open       : string -> sys N;
  w_read       : source -> sys (list Z);
  w_sign_open  : list Z -> list Z -> list Z -> Z;
  w_setgid     : Z -> option Z;
  w_setuid     : Z -> option Z;
  w_execlp     : string -> option Z
}.

(** One entry per call, with its result.  [EvUnhex] records a call of
    [unhexpcpy]. *)
Inductive event : Type :=
| EvTime (t : Z)
| EvGeteuid (ret : Z)
| EvGetuid (ret : Z)
| EvOpen (path : string) (ret : Z)
| EvRead (fd count ret : Z) (data : list Z)
| EvClose (fd : Z)
| EvWrite (fd : Z) (data : list Z)
| EvSleep (seconds : Z)
| EvUnhex (inp : list Z) (n : Z)
| EvSignOpen (m : list Z) (mlen : Z) (pk sig : list Z) (ret : Z)
| EvSetgid (gid ret : Z)
| EvSetuid (uid ret : Z)
| EvExeclp (file : string) (argv : list string) (err : option Z)
| EvExit (status : Z).

(** How a run ends.  [Undefined] stands for a buffer read out of bounds. *)
Inductive outcome : Type :=
| Exited (status : Z)
| Replaced (file : string) (argv : list string)
| Undefined.

(** Process state: [errno], [static int exit_status] and the open
    descriptors. *)
Record State : Type := {
  errno       : Z;
  exit_status : Z;
  fds         : list (Z * source)
}.

(** [static int exit_status = 125;] *)
Definition initial_state : State :=
  {| errno := 0; exit_status := 125; fds := [(STDIN_FILENO, Stdin)] |}.

Definition set_errno (e : Z) (st : State) : State :=
  {| errno := e; exit_status := exit_status st; fds := fds st |}.

Definition set_exit_status (s : Z) (st : State) : State :=
  {| errno := errno st; exit_status := s; fds := fds st |}.

Definition set_fds (t : list (Z * source)) (st : State) : State :=
  {| errno := errno st; exit_status := exit_status st; fds := t |}.

Fixpoint fd_lookup (fd : Z) (t : list (Z * source)) : option source :=
  match t with
  | [] => None
  | (fd', s) :: t' => if fd' =? fd then Some s else fd_lookup fd t'
  end.

Fixpoint fd_remove (fd : Z) (t : list (Z * source)) : list (Z * source) :=
  match t with
  | [] => []
  | (fd', s) :: t' =>
      if fd' =? fd then fd_remove fd t' else (fd', s) :: fd_remove fd t'
  end.

(** ** The monad of the program: trace, state, early termination *)

Inductive Res (A : Type) : Type :=
| Ret (a : A)
| Halt (o : outcome).
Arguments Ret {A} a.
Arguments Halt {A} o.

Definition M (A : Type) : Type := State -> list event * State * Res A.

Definition ret {A} (a : A) : M A := fun st => ([], st, Ret a).

Definition bind {A B} (m : M A) (f : A -> M B) : M B :=
  fun st =>
    match m st with
    | (tr1, st1, Ret a) =>
        match f a st1 with
        | (tr2, st2, r) => (tr1 ++ tr2, st2, r)
        end
    | (tr1, st1, Halt o) => (tr1, st1, Halt o)
    end.

Notation "x <- m ;; k" := (bind m (fun x => k))
  (at level 61, m at next level, right associativity).
Notation "' pat <- m ;; k" :=
  (bind m (fun x => match x with pat => k end))
  (at level 61, pat pattern, m at next level, right associativity).
Notation "m ;; k" := (bind m (fun _ => k))
  (at level 61, right associativity).

Definition emit (e : event) : M unit := fun st => ([e], st, Ret tt).
Definition get {A} (f : State -> A) : M A := fun st => ([], st, Ret (f st)).
Definition modify (f : State -> State) : M unit := fun st => ([], f st, Ret tt).
Definition halt {A} (o : outcome) : M A := fun st => ([], st, Halt o).

(** [if ( c ) { m }] *)
Definition when (c : bool) (m : M unit) : M unit := if c then m else ret tt.

(** Fixed texts of the protocol. *)
Definition ACCESS_GRANTED : list Z := chars "ACCESS GRANTED" ++ [LF].
Definition ACCESS_DENIED  : list Z := chars "ACCESS DENIED" ++ [LF].

(** ** System calls *)

Section Program.

Variable w : World.

(** [time( NULL )] *)
Definition sys_time : M Z :=
  emit (EvTime (w_time w)) ;; ret (w_time w).

Definition sys_geteuid : M Z :=
  emit (EvGeteuid (w_geteuid w)) ;; ret (w_geteuid w).

Definition sys_getuid : M Z :=
  emit (EvGetuid (w_getuid w)) ;; ret (w_getuid w).

(** [open( path, O_RDONLY )]: -1 and [errno] on failure, otherwise the new
    descriptor, which from now on refers to the file. *)
Definition sys_open (path : string) : M Z :=
  match w_open w path with
  | Fails e =>
      modify (set_errno e) ;; emit (EvOpen path (-1)) ;; ret (-1)
  | Gives n =>
      let fd := Z.of_N n in
      t <- get fds ;;
      modify (set_fds ((fd, File path) :: fd_remove fd t)) ;;
      emit (EvOpen path fd) ;; ret fd
  end.

(** [read( fd, buf, count )]: -1 and [errno] on failure, otherwise the
    number of bytes stored at the start of [buf] (at most [count]) together
    with those bytes. *)
Definition sys_read (fd count : Z) : M (Z * list Z) :=
  t <- get fds ;;
  match fd_lookup fd t with
  | None =>
      modify (set_errno EBADF) ;; emit (EvRead fd count (-1) []) ;; ret (-1, [])
  | Some src =>
      match w_read w src with
      | Fails e =>
          modify (set_errno e) ;; emit (EvRead fd count (-1) []) ;; ret (-1, [])
      | Gives avail =>
          let data := firstn (Z.to_nat count) avail in
          let n := Z.of_nat (length data) in
          emit (EvRead fd count n data) ;; ret (n, data)
      end
  end.

Definition sys_close (fd : Z) : M unit :=
  t <- get fds ;;
  modify (set_fds (fd_remove fd t)) ;; emit (EvClose fd).

(** [write( fd, STR_LEN( s ) )] and [write( fd, s, strlen( s ) )]: all of
    [s]; the program ignores the result. *)
Definition sys_write (fd : Z) (data : list Z) : M unit :=
  emit (EvWrite fd data).

(** [write( fd, buf, len )]: the first [len] bytes of [buf]. *)
Definition sys_write_buf (fd : Z) (buf : list Z) (len : Z) : M unit :=
  emit (EvWrite fd (firstn (Z.to_nat len) buf)).

Definition sys_sleep (seconds : Z) : M unit :=
  emit (EvSleep seconds).

Definition sys_setgid (gid : Z) : M Z :=
  match w_setgid w gid with
  | Some e => modify (set_errno e) ;; emit (EvSetgid gid (-1)) ;; ret (-1)
  | None => emit (EvSetgid gid 0) ;; ret 0
  end.

Definition sys_setuid (uid : Z) : M Z :=
  match w_setuid w uid with
  | Some e => modify (set_errno e) ;; emit (EvSetuid uid (-1)) ;; ret (-1)
  | None => emit (EvSetuid uid 0) ;; ret 0
  end.

(** [execlp( file, arg0, ..., NULL )] returns only on failure. *)
Definition sys_execlp (file : string) (argv : list string) : M Z :=
  match w_execlp w file with
  | Some e =>
      modify (set_errno e) ;; emit (EvExeclp file argv (Some e)) ;; ret (-1)
  | None =>
      emit (EvExeclp file argv None) ;; halt (Replaced file argv)
  end.

(** [exit( status )] *)
Definition sys_exit (status : Z) : M unit :=
  emit (EvExit status) ;; halt (Exited status).

(** [ed25519_sign_open( m, mlen, pk, RS )] *)
Definition ed25519_sign_open (m : list Z) (mlen : Z) (pk sig : list Z) : M Z :=
  let r := w_sign_open w (firstn (Z.to_nat mlen) m) pk sig in
  emit (EvSignOpen (firstn (Z.to_nat mlen) m) mlen pk sig r) ;; ret r.

(** ** The program *)

(** [error( msg, len )] *)
Definition error (msg : list Z) : M unit :=
  e <- get errno ;;
  let err := w_strerror w e in
  sys_write STDERR_FILENO msg ;;
  sys_write STDERR_FILENO err ;;
  sys_write STDERR_FILENO [LF] ;;
  s <- get exit_status ;;
  sys_exit s.

(** [fail( msg, len )] *)
Definition fail (msg : list Z) : M unit :=
  sys_write STDERR_FILENO msg ;;
  s <- get exit_status ;;
  sys_exit s.

(** [ERROR( s )] is [error( STR_LEN( PROGRAM ": " s ": " ) )]. *)
Definition ERROR_msg (s : string) : list Z :=
  chars PROGRAM ++ chars ": " ++ chars s ++ chars ": ".

(** [FAIL( s )] is [fail( STR_LEN( PROGRAM ": " s "\n" ) )]. *)
Definition FAIL_msg (s : string) : list Z :=
  chars PROGRAM ++ chars ": " ++ chars s ++ [LF].

Definition ERROR (s : string) : M unit := error (ERROR_msg s).
Definition FAIL (s : string) : M unit := fail (FAIL_msg s).

(** [make_challenge( buffer )]: the contents of the 32-byte buffer on
    return. *)
Definition make_challenge : M (list Z) :=
  t0 <- sys_time ;;
  let t := to_u32 t0 in
  fd <- sys_open RANDOM_PATH ;;
  when (fd <? 0) (ERROR RANDOM_PATH) ;;
  '(n_read, random) <- sys_read fd n_random_bytes ;;
  when (n_read <? 0) (ERROR RANDOM_PATH) ;;
  when (negb (n_read =? n_random_bytes))
       (FAIL ("insufficient data from " ++ RANDOM_PATH)%string) ;;
  sys_close fd ;;
  ret (native_u32 (w_big_endian w) t ++ random).

(** [response_answers_challenge( sig, msg, msg_len )] *)
Definition response_answers_challenge (sig msg : list Z) (msg_len : Z) : M bool :=
  fd <- sys_open PUBLIC_KEY_PATH ;;
  when (fd <? 0) (ERROR PUBLIC_KEY_PATH) ;;
  '(n_read, public_key) <- sys_read fd sizeof_public_key ;;
  when (n_read <? 0) (ERROR PUBLIC_KEY_PATH) ;;
  when (negb (n_read =? sizeof_public_key))
       (FAIL ("insufficient data from " ++ PUBLIC_KEY_PATH)%string) ;;
  sys_close fd ;;
  nok <- ed25519_sign_open msg msg_len public_key sig ;;
  ret (nok =? 0).

(** A buffer filled by one of the copy loops. *)
Definition filled (o : option (list Z)) : M (list Z) :=
  match o with
  | Some buf => ret buf
  | None => halt Undefined
  end.

(** [authenticate()] *)
Definition authenticate : M bool :=
  sys_write STDOUT_FILENO (chars "Standby...") ;;
  sys_sleep 1 ;;
  sys_write STDOUT_FILENO [LF] ;;
  challenge <- make_challenge ;;
  hex <- filled (hexpcpy_lower challenge (Z.to_nat challenge_size)) ;;
  let challenge_hex := hex ++ [LF] in
  sys_write STDOUT_FILENO (chars "Challenge: ") ;;
  sys_write_buf STDOUT_FILENO challenge_hex sizeof_challenge_hex ;;
  '(n_read, response_hex) <- sys_read STDIN_FILENO 256 ;;
  when (n_read <? 0) (ERROR "<response>") ;;
  granted <-
    (if (n_read =? 129) && (nth 128 response_hex 0 =? LF) then
       emit (EvUnhex response_hex 64) ;;
       response <- filled (unhexpcpy response_hex 64) ;;
       valid <- response_answers_challenge response challenge_hex
                  sizeof_challenge_hex ;;
       if valid : bool then
         sys_write STDOUT_FILENO ACCESS_GRANTED ;;
         ret true
       else ret false
     else ret false) ;;
  if granted : bool then ret true
  else
    sys_write STDOUT_FILENO ACCESS_DENIED ;;
    ret false.

(** [main( argc, argv )] *)
Definition main (argc : Z) : M Z :=
  when (argc >? 1) (FAIL "no arguments are allowed") ;;
  euid <- sys_geteuid ;;
  when (negb (euid =? 0)) (FAIL "not running as root (is it setuid?)") ;;
  current_uid <- sys_getuid ;;
  when (negb (current_uid =? 0))
       (ok <- authenticate ;;
        when (negb ok) (sys_exit 1)) ;;
  let uid := 0 in
  let gid := 0 in
  r <- sys_setgid gid ;;
  when (r <? 0) (ERROR "setgid") ;;
  r <- sys_setuid uid ;;
  when (r <? 0) (ERROR "setuid") ;;
  sys_execlp SHELL_PATH ["sh"%string] ;;
  e <- get errno ;;
  modify (set_exit_status ((if e =? ENOENT then 1 else 0) + 126)) ;;
  ERROR SHELL_PATH ;;
  ret 0.

(** A whole run from process start: the trace and how it ended
    (returning from [main] exits with the returned status). *)
Definition run (argc : Z) : list event * outcome :=
  match main argc initial_state with
  | (tr, _, Ret status) => (tr, Exited status)
  | (tr, _, Halt o) => (tr, o)
  end.

End Program.

End Su.

(* ================================================================== *)
(** * Vocabulary for traces and sample environments                    *)
(* ================================================================== *)

Module Trace.
Import Hexadecimal Su.

Definition is_open (e : event) : bool :=
  match e with EvOpen _ _ => true | _ => false end.

Definition is_key_open (e : event) : bool :=
  match e with EvOpen p _ => String.eqb p PUBLIC_KEY_PATH | _ => false end.

Definition is_read (e : event) : bool :=
  match e with EvRead _ _ _ _ => true | _ => false end.

(** The one [read] of [authenticate] that takes the response: from
    stdin, with room for 256 bytes. *)
Definition is_response_read (e : event) : bool :=
  match e with
  | EvRead fd count _ _ => (fd =? STDIN_FILENO) && (count =? 256)
  | _ => false
  end.

Definition is_stdout_write (e : event) : bool :=
  match e with EvWrite fd _ => fd =? STDOUT_FILENO | _ => false end.

Definition is_unhex (e : event) : bool :=
  match e with EvUnhex _ _ => true | _ => false end.

Definition is_sign_open (e : event) : bool :=
  match e with EvSignOpen _ _ _ _ _ => true | _ => false end.

(** Anything [authenticate] does: output on stdout, the pause, the clock,
    files, input, decoding, verification. *)
Definition is_authentication (e : event) : bool :=
  match e with
  | EvWrite fd _ => fd =? STDOUT_FILENO
  | EvSleep _ | EvTime _ | EvOpen _ _ | EvRead _ _ _ _ | EvClose _
  | EvUnhex _ _ | EvSignOpen _ _ _ _ _ => true
  | _ => false
  end.

(** An environment or identity-change error: the effective uid is not
    root, a file cannot be opened, a read fails, a file gives fewer bytes
    than asked for (the response is not a file: it is read with room for
    256 bytes), or the group or user id cannot be set. *)
Definition is_fatal (e : event) : bool :=
  match e with
  | EvGeteuid ret => negb (ret =? 0)
  | EvOpen _ ret => ret <? 0
  | EvRead _ count ret _ =>
      (ret <? 0) || (negb (count =? 256) && negb (ret =? count))
  | EvSetgid _ ret | EvSetuid _ ret => ret <? 0
  | _ => false
  end.

(** The part of a trace before the first event that satisfies [p]. *)
Fixpoint before (p : event -> bool) (tr : list event) : list event :=
  match tr with
  | [] => []
  | e :: tr' => if p e then [] else e :: before p tr'
  end.

Definition never (p : event -> bool) (tr : list event) : bool :=
  forallb (fun e => negb (p e)) tr.

Definition count (p : event -> bool) (tr : list event) : nat :=
  length (filter p tr).

(** The random source cannot be opened, cannot be read, or has fewer than
    28 bytes to give. *)
Definition random_unavailable (w : World) : Prop :=
  match w_open w RANDOM_PATH with
  | Fails _ => True
  | Gives _ =>
      match w_read w (File RANDOM_PATH) with
      | Fails _ => True
      | Gives avail => (length avail < 28)%nat
      end
  end.

(** A sample environment: a little-endian machine, a caller with real uid
    [uid], files opened on descriptor 3, a random source and a key file
    with plenty of bytes, [response] waiting on stdin, a verification
    primitive that answers [verdict], and a shell whose exec gives
    [exec]. *)
Definition sample_world (uid : Z) (random response : sys (list Z))
    (verdict : Z) (exec : option Z) : World :=
  {| w_big_endian := false;
     w_strerror := fun e => chars "errno " ++ [chr "0" + e];
     w_time := 1700000000;
     w_geteuid := 0;
     w_getuid := uid;
     w_open := fun _ => Gives 3%N;
     w_read := fun s =>
       match s with
       | Stdin => response
       | File p => if String.eqb p RANDOM_PATH then random
                   else Gives (repeat 0x5a 32)
       end;
     w_sign_open := fun _ _ _ => verdict;
     w_setgid := fun _ => None;
     w_setuid := fun _ => None;
     w_execlp := fun _ => exec |}.

Definition sample_random : sys (list Z) := Gives (map Z.of_nat (seq 1 40)).

(** 128 hexadecimal characters and a line feed. *)
Definition sample_response : list Z := repeat (chr "A") 128 ++ [LF].

End Trace.

(* ================================================================== *)
(** * Vocabulary for the protocol as a whole                           *)
(* ================================================================== *)

Module Protocol.
Import Hexadecimal Su Trace.

(** All the bytes written to descriptor [fd], in order. *)
Fixpoint written (fd : Z) (tr : list event) : list Z :=
  match tr with
  | [] => []
  | EvWrite fd' data :: tr' =>
      if fd' =? fd then data ++ written fd tr' else written fd tr'
  | _ :: tr' => written fd tr'
  end.

Definition is_close (e : event) : bool :=
  match e with EvClose _ => true | _ => false end.

Definition is_exec (e : event) : bool :=
  match e with EvExeclp _ _ _ => true | _ => false end.

Definition is_identity_change (e : event) : bool :=
  match e with EvSetgid _ _ | EvSetuid _ _ => true | _ => false end.

(** A call of the verification primitive that accepted the signature. *)
Definition is_accepted (e : event) : bool :=
  match e with EvSignOpen _ _ _ _ ret => ret =? 0 | _ => false end.

(** The public key file cannot be opened, cannot be read, or has fewer
    than 32 bytes to give. *)
Definition key_unavailable (w : World) : Prop :=
  match w_open w PUBLIC_KEY_PATH with
  | Fails _ => True
  | Gives _ =>
      match w_read w (File PUBLIC_KEY_PATH) with
      | Fails _ => True
      | Gives avail => (length avail < 32)%nat
      end
  end.

(** An entry of the descriptor table that refers to a file. *)
Definition refers_to_file (entry : Z * source) : bool :=
  match snd entry with File _ => true | Stdin => false end.

(** The value of a byte read through a [char] that is signed. *)
Definition as_signed_char (c : Z) : Z := if c <? 128 then c else c - 256.

(** A sample key file that is too short. *)
Definition short_key_world : World :=
  {| w_big_endian := false;
     w_strerror := fun e => chars "errno " ++ [chr "0" + e];
     w_time := 1700000000;
     w_geteuid := 0;
     w_getuid := 2000;
     w_open := fun _ => Gives 3%N;
     w_read := fun s =>
       match s with
       | Stdin => Gives sample_response
       | File p => if String.eqb p RANDOM_PATH then sample_random
                   else Gives (repeat 0x5a 31)
       end;
     w_sign_open := fun _ _ _ => 0;
     w_setgid := fun _ => None;
     w_setuid := fun _ => None;
     w_execlp := fun _ => None |}.

(** A sample caller that is not set-uid root. *)
Definition unprivileged_world : World :=
  {| w_big_endian := false;
     w_strerror := fun e => chars "errno " ++ [chr "0" + e];
     w_time := 1700000000;
     w_geteuid := 2000;
     w_getuid := 2000;
     w_open := fun _ => Gives 3%N;
     w_read := fun _ => Gives [];
     w_sign_open := fun _ _ _ => 0;
     w_setgid := fun _ => None;
     w_setuid := fun _ => None;
     w_execlp := fun _ => None |}.

End Protocol.

Import Hexadecimal Su Trace.

(* ================================================================== *)
(** * Properties of the codec                                          *)
(* ================================================================== *)

Section Codec.

(** A property checked on 0, ..., n-1 holds of every number below [n]. *)
Lemma range_cases (n : nat) (P : Z -> bool) :
  forallb P (map Z.of_nat (seq 0 n)) = true ->
  forall i, 0 <= i < Z.of_nat n -> P i = true.
Proof.
  intros Hall i [Hlo Hhi].
  rewrite forallb_forall in Hall. apply Hall.
  rewrite <- (Z2Nat.id i) by assumption.
  apply in_map, in_seq. lia.
Qed.

(** A property checked on all 256 bytes holds of every byte. *)
Lemma byte_cases (P : Z -> bool) :
  forallb P (map Z.of_nat (seq 0 256)) = true ->
  forall c, is_byte c -> P c = true.
Proof. intros Hall c Hc. apply (range_cases 256 P Hall). exact Hc. Qed.

Lemma land_31_range c : 0 <= Z.land c 0x1f < 32.
Proof.
  change 0x1f with (Z.ones 5). rewrite Z.land_ones by lia.
  apply Z.mod_pos_bound. reflexivity.
Qed.

Lemma land_31_byte c : Z.land c 0x1f = Z.land (c mod 256) 0x1f.
Proof.
  change 0x1f with (Z.ones 5). rewrite !Z.land_ones by lia.
  rewrite Z.mod_mod_divide; [reflexivity |].
  exists 8. reflexivity.
Qed.

(** The decoder sees a character only through its low byte. *)
Lemma decoded_hex_digit_byte c :
  decoded_hex_digit c = decoded_hex_digit (c mod 256).
Proof. unfold decoded_hex_digit. now rewrite land_31_byte. Qed.

Lemma mod_256_is_byte c : is_byte (c mod 256).
Proof. apply Z.mod_pos_bound. reflexivity. Qed.

Lemma is_hex_char_is_byte c : is_hex_char c = true -> is_byte c.
Proof.
  unfold is_hex_char, is_digit, is_lower_hex_letter, is_upper_hex_letter, is_byte.
  change (chr "0") with 48; change (chr "9") with 57.
  change (chr "a") with 97; change (chr "f") with 102.
  change (chr "A") with 65; change (chr "F") with 70.
  intros H.
  repeat (apply orb_true_iff in H; destruct H as [H | H]);
    apply andb_true_iff in H; destruct H as [H1 H2];
    apply Z.leb_le in H1; apply Z.leb_le in H2; lia.
Qed.

(** Decoding the two characters written for one byte gives the byte. *)
Lemma byte_roundtrip c :
  is_byte c ->
  to_byte
    (Z.lor
       (to_byte (Z.shiftl
          (decoded_hex_digit (encoded_hex_char (to_byte (Z.shiftr c 4)))) 4))
       (to_byte (Z.shiftl
          (decoded_hex_digit (encoded_hex_char (to_byte (Z.shiftr c 0)))) 0)))
  = c.
Proof.
  intros Hc. apply Z.eqb_eq. revert c Hc.
  apply (byte_cases (fun c =>
    to_byte
      (Z.lor
         (to_byte (Z.shiftl
            (decoded_hex_digit (encoded_hex_char (to_byte (Z.shiftr c 4)))) 4))
         (to_byte (Z.shiftl
            (decoded_hex_digit (encoded_hex_char (to_byte (Z.shiftr c 0)))) 0)))
    =? c)).
  vm_compute. reflexivity.
Qed.

(** The encoder only writes characters of 0-9, a-f. *)
Lemma encoded_hex_char_lower d : is_lower_hex_char (encoded_hex_char d) = true.
Proof.
  unfold encoded_hex_char.
  assert (H : 0 <= Z.land d 0x0f < 16).
  { change 0x0f with (Z.ones 4). rewrite Z.land_ones by lia.
    apply Z.mod_pos_bound. reflexivity. }
  destruct (Z.land d 0x0f) as [| p | p]; [reflexivity | | lia].
  do 4 (destruct p as [p | p |]; try reflexivity; try lia).
Qed.

Lemma hexpcpy_lower_length inp n out :
  hexpcpy_lower inp n = Some out -> length out = (2 * n)%nat.
Proof.
  revert inp out. induction n as [| n IH]; intros inp out; simpl.
  - intros [= <-]. reflexivity.
  - destruct inp as [| c p]; [discriminate |].
    destruct (hexpcpy_lower p n) as [out' |] eqn:E; [| discriminate].
    intros [= <-]. simpl. rewrite (IH _ _ E). lia.
Qed.

Lemma hexpcpy_lower_alphabet inp n out :
  hexpcpy_lower inp n = Some out ->
  Forall (fun c => is_lower_hex_char c = true) out.
Proof.
  revert inp out. induction n as [| n IH]; intros inp out; simpl.
  - intros [= <-]. constructor.
  - destruct inp as [| c p]; [discriminate |].
    destruct (hexpcpy_lower p n) as [out' |] eqn:E; [| discriminate].
    intros [= <-].
    repeat constructor; try apply encoded_hex_char_lower. eapply IH; eassumption.
Qed.

(** The encoder fills its buffer whenever the input has [n] bytes. *)
Lemma hexpcpy_lower_total inp n :
  (n <= length inp)%nat -> exists out, hexpcpy_lower inp n = Some out.
Proof.
  revert inp. induction n as [| n IH]; intros inp Hn; simpl.
  - eauto.
  - destruct inp as [| c p]; simpl in Hn; [lia |].
    destruct (IH p) as [out E]; [lia |]. rewrite E. eauto.
Qed.

(** The decoder fills its buffer whenever the input has [2 n] characters,
    whatever they are. *)
Lemma unhexpcpy_total inp n :
  (2 * n <= length inp)%nat ->
  exists out, unhexpcpy inp n = Some out /\ length out = n.
Proof.
  revert inp. induction n as [| n IH]; intros inp Hn; simpl.
  - eauto.
  - destruct inp as [| c1 [| c2 p]]; simpl in Hn; try lia.
    destruct (IH p) as (out & E & L); [lia |]. rewrite E.
    eexists; split; [reflexivity |]. simpl. now rewrite L.
Qed.

Lemma decoded_hex_digit_to_upper c :
  decoded_hex_digit (to_upper c) = decoded_hex_digit c.
Proof.
  unfold to_upper. destruct (_ && _); [| reflexivity].
  unfold decoded_hex_digit. f_equal. f_equal.
  change 0x1f with (Z.ones 5). rewrite !Z.land_ones by lia.
  replace (c - 32) with (c + (-1) * 2 ^ 5) by lia.
  now rewrite Z.mod_add by lia.
Qed.

Lemma decoded_hex_digit_to_lower c :
  decoded_hex_digit (to_lower c) = decoded_hex_digit c.
Proof.
  unfold to_lower. destruct (_ && _); [| reflexivity].
  unfold decoded_hex_digit. f_equal. f_equal.
  change 0x1f with (Z.ones 5). rewrite !Z.land_ones by lia.
  replace (c + 32) with (c + 1 * 2 ^ 5) by lia.
  now rewrite Z.mod_add by lia.
Qed.

Lemma unhexpcpy_ext (f : Z -> Z) :
  (forall c, decoded_hex_digit (f c) = decoded_hex_digit c) ->
  forall n s, unhexpcpy (map f s) n = unhexpcpy s n.
Proof.
  intros Hf. induction n as [| n IH]; intros s; [reflexivity |].
  destruct s as [| c1 [| c2 p]]; try reflexivity.
  simpl. now rewrite !Hf, IH.
Qed.

End Codec.

(* ------------------------------------------------------------------ *)
(** ** Round trip                                                      *)

(** C4.  For every byte sequence [b], of any length, the encoder writes
    [2 * length b] characters of 0-9a-f, and decoding them gives [b]
    again: [decode (encode_lower b) = b]. *)
Theorem decode_encode_lower (b : list Z) (Hb : Forall is_byte b) :
  exists h,
    encode_lower b = Some h /\
    length h = (2 * length b)%nat /\
    Forall (fun c => is_lower_hex_char c = true) h /\
    unhexpcpy h (length b) = Some b /\
    decode h = Some b.
Proof.
  assert (Hmain : exists h,
            hexpcpy_lower b (length b) = Some h /\
            unhexpcpy h (length b) = Some b).
  { induction Hb as [| c b Hc Hb IH].
    - exists []. split; reflexivity.
    - destruct IH as (h & Henc & Hdec).
      cbn [hexpcpy_lower length]. rewrite Henc. eexists. split; [reflexivity |].
      cbn [unhexpcpy]. rewrite Hdec. now rewrite (byte_roundtrip c Hc). }
  destruct Hmain as (h & Henc & Hdec).
  pose proof (hexpcpy_lower_length _ _ _ Henc) as Hlen.
  exists h. unfold encode_lower, decode.
  repeat split; try assumption.
  - eapply hexpcpy_lower_alphabet; eassumption.
  - now rewrite Hlen, Nat.div2_double.
Qed.

Lemma decode_encode_lower_witness :
  Forall is_byte [0; 0x3f; 0xa5; 255] /\
  exists h,
    encode_lower [0; 0x3f; 0xa5; 255] = Some h /\
    length h = (2 * length [0; 0x3f; 0xa5; 255])%nat /\
    Forall (fun c => is_lower_hex_char c = true) h /\
    unhexpcpy h (length [0; 0x3f; 0xa5; 255]) = Some [0; 0x3f; 0xa5; 255] /\
    decode h = Some [0; 0x3f; 0xa5; 255].
Proof.
  assert (H : Forall is_byte [0; 0x3f; 0xa5; 255])
    by (repeat constructor; unfold is_byte; lia).
  split; [exact H | exact (decode_encode_lower _ H)].
Defined.

(* ------------------------------------------------------------------ *)
(** ** Case                                                            *)

(** C7.  The decoder is case-insensitive: a hexadecimal character decodes
    to its numeric value in either case, converting a whole text to upper
    or to lower case does not change what it decodes to, and "3f" and
    "3F" both decode to the single byte 0x3f. *)
Theorem decode_case_insensitive (c : Z) (Hc : is_hex_char c = true) :
  decoded_hex_digit (to_upper c) = hex_value c /\
  decoded_hex_digit (to_lower c) = hex_value c /\
  decoded_hex_digit (to_upper c) = decoded_hex_digit (to_lower c) /\
  (forall s n, unhexpcpy (map to_upper s) n = unhexpcpy (map to_lower s) n) /\
  decode (chars "3f") = Some [0x3f] /\
  decode (chars "3F") = Some [0x3f].
Proof.
  assert (Hv : decoded_hex_digit c = hex_value c).
  { apply Z.eqb_eq.
    pose proof (byte_cases
      (fun c => implb (is_hex_char c) (decoded_hex_digit c =? hex_value c))
      eq_refl c (is_hex_char_is_byte c Hc)) as H.
    cbv beta in H. now rewrite Hc in H. }
  rewrite decoded_hex_digit_to_upper, decoded_hex_digit_to_lower.
  repeat split; try assumption; try reflexivity.
  intros s n.
  now rewrite (unhexpcpy_ext to_upper decoded_hex_digit_to_upper),
              (unhexpcpy_ext to_lower decoded_hex_digit_to_lower).
Qed.

Lemma decode_case_insensitive_witness :
  is_hex_char (chr "f") = true /\
  decoded_hex_digit (to_upper (chr "f")) = decoded_hex_digit (to_lower (chr "f")).
Proof.
  split; [reflexivity |].
  exact (proj1 (proj2 (proj2 (decode_case_insensitive (chr "f") eq_refl)))).
Defined.

(* ------------------------------------------------------------------ *)
(** ** Characters outside the alphabet                                 *)

(** Against C3 as worded: 'q' is not a hexadecimal character, and it
    decodes to nibble 1 (it shares its five low bits with '1'); '!'
    decodes to 0xA. *)
Lemma nonhex_q_decodes_to_one :
  is_hex_char (chr "q") = false /\
  decoded_hex_digit (chr "q") = 1 /\
  decode (chars "q!") = Some [0x1a] /\
  ~ nonhex_decodes_to_zero.
Proof.
  repeat split; try reflexivity.
  intros H. specialize (H (chr "q")).
  assert (Hq : is_byte (chr "q")) by (unfold is_byte; cbn; lia).
  specialize (H Hq eq_refl). discriminate H.
Qed.

(** C3 (as the code has it).  The decoder never signals an error: it
    fills its buffer from any text that is long enough, and every
    character decodes to a nibble, the entry of the table at its five low
    bits.  A character outside the hexadecimal alphabet decodes to nibble
    0 exactly when those bits select 0, 7..16 or 26..31, as they do for
    'z', so that "zz" decodes to the single byte 0x00; any other one
    decodes to the value of the hexadecimal digit with the same five low
    bits. *)
Theorem nonhex_decoding (c : Z) (Hc : is_hex_char c = false) :
  0 <= decoded_hex_digit c < 16 /\
  (decoded_hex_digit c = 0 <-> zero_slot (Z.land c 0x1f) = true) /\
  (decoded_hex_digit c <> 0 ->
   exists d, is_hex_char d = true /\ Z.land d 0x1f = Z.land c 0x1f /\
             decoded_hex_digit c = hex_value d) /\
  (forall inp n, (2 * n <= length inp)%nat ->
     exists out, unhexpcpy inp n = Some out /\ length out = n) /\
  zero_slot (Z.land (chr "z") 0x1f) = true /\
  decode (chars "zz") = Some [0x00].
Proof.
  assert (Hslot : forall i, 0 <= i < 32 ->
            let v := nth (Z.to_nat i) decoded_hex_table bad in
            0 <= v < 16 /\ (v = 0 <-> zero_slot i = true) /\
            (v <> 0 -> exists d, is_hex_char d = true /\ Z.land d 0x1f = i /\
                                 v = hex_value d)).
  { intros i Hi. cbv zeta.
    pose proof (range_cases 32
      (fun i =>
         let v := nth (Z.to_nat i) decoded_hex_table bad in
         let d := if i <=? 6 then i + 96 else i + 32 in
         (0 <=? v) && (v <? 16) && Bool.eqb (v =? 0) (zero_slot i) &&
         ((v =? 0) ||
          (is_hex_char d && (Z.land d 0x1f =? i) && (v =? hex_value d))))
      eq_refl i Hi) as H.
    cbv beta zeta in H.
    set (v := nth (Z.to_nat i) decoded_hex_table bad) in *.
    set (d := if i <=? 6 then i + 96 else i + 32) in *.
    repeat (apply andb_true_iff in H; destruct H as [H ?]).
    apply Z.leb_le in H.
    match goal with X : (v <? 16) = true |- _ => apply Z.ltb_lt in X end.
    match goal with X : Bool.eqb _ _ = true |- _ => apply Bool.eqb_prop in X; rename X into Hz end.
    match goal with X : (_ || _) = true |- _ => rename X into Hd end.
    split; [lia |]. split.
    - rewrite <- Hz. symmetry. apply Z.eqb_eq.
    - intros Hnz. apply orb_true_iff in Hd. destruct Hd as [Hd | Hd].
      + apply Z.eqb_eq in Hd. contradiction.
      + repeat (apply andb_true_iff in Hd; destruct Hd as [Hd ?]).
        exists d. repeat split; try assumption; now apply Z.eqb_eq. }
  destruct (Hslot (Z.land c 0x1f) (land_31_range c)) as (H1 & H2 & H3).
  fold (decoded_hex_digit c) in H1, H2, H3.
  repeat split; try (apply H1); try (apply H2); try reflexivity.
  - exact H3.
  - exact unhexpcpy_total.
Qed.

Lemma nonhex_decoding_witness :
  is_hex_char (chr "z") = false /\ decoded_hex_digit (chr "z") = 0.
Proof.
  split; [reflexivity |].
  apply (proj1 (proj2 (nonhex_decoding (chr "z") eq_refl))). reflexivity.
Defined.

(* ================================================================== *)
(** * Properties of the program                                        *)
(* ================================================================== *)

(** ** Symbolic execution *)

(** Unfold the program and the monad, keeping system answers, texts and
    arithmetic folded. *)
Ltac unfold_program :=
  cbv beta iota zeta delta
    [main run authenticate make_challenge response_answers_challenge
     ERROR FAIL error fail filled when
     bind ret emit get modify halt
     sys_time sys_geteuid sys_getuid sys_open sys_read sys_close
     sys_write sys_write_buf sys_sleep sys_setgid sys_setuid sys_execlp
     sys_exit ed25519_sign_open];
  cbn [app errno exit_status fds set_errno set_exit_status set_fds
       initial_state fst snd].

Lemma fd_lookup_head fd s t : fd_lookup fd ((fd, s) :: t) = Some s.
Proof. simpl. now rewrite Z.eqb_refl. Qed.

(** The copy loops of [authenticate] stay inside their buffers: the
    challenge has 32 bytes once the random source gave 28, and a response
    of 129 bytes has the 128 characters to decode. *)
Lemma random_read_length (avail : list Z) :
  negb (Z.of_nat (length (firstn (Z.to_nat n_random_bytes) avail))
        =? n_random_bytes) = false ->
  length (firstn (Z.to_nat n_random_bytes) avail) = 28%nat.
Proof.
  intros H. apply negb_false_iff, Z.eqb_eq in H.
  unfold n_random_bytes in *. lia.
Qed.

Lemma challenge_hex_total be t (avail : list Z) :
  negb (Z.of_nat (length (firstn (Z.to_nat n_random_bytes) avail))
        =? n_random_bytes) = false ->
  hexpcpy_lower (native_u32 be t ++ firstn (Z.to_nat n_random_bytes) avail)
                (Z.to_nat challenge_size) <> None.
Proof.
  intros H%random_read_length E.
  destruct (hexpcpy_lower_total
              (native_u32 be t ++ firstn (Z.to_nat n_random_bytes) avail)
              (Z.to_nat challenge_size)) as [out Hout].
  - rewrite length_app, H. unfold native_u32. destruct be; cbn; lia.
  - congruence.
Qed.

Lemma well_framed (n : Z) (d : list Z) :
  (n =? 129) && (nth 128 d 0 =? LF) = true -> n = 129 /\ nth 128 d 0 = LF.
Proof. intros [H1 H2]%andb_true_iff. split; now apply Z.eqb_eq. Qed.

Lemma response_total (d : list Z) :
  (Z.of_nat (length d) =? 129) && (nth 128 d 0 =? LF) = true ->
  unhexpcpy d 64 <> None.
Proof.
  intros [H _]%well_framed E.
  destruct (unhexpcpy_total d 64) as (out & Hout & _); [lia | congruence].
Qed.

(** A test whose outcome contradicts what is already known: a closed
    test is computed, a sign test is left to arithmetic, and the copy
    loops do not leave their buffers. *)
Ltac absurd_test H :=
  first [ discriminate H
        | exfalso; refine (challenge_hex_total _ _ _ _ H); eassumption
        | exfalso; refine (response_total _ _ H); eassumption
        | lazymatch type of H with
          | ?x = _ =>
              tryif (match x with context [?y] => is_var y end)
              then fail
              else (vm_compute in H; discriminate H)
          end
        | apply Z.ltb_lt in H; exfalso; lia ].

(** Split on the innermost undecided test. *)
Ltac split_test :=
  match goal with
  | |- context [match ?x with _ => _ end] =>
      lazymatch x with
      | context [match _ with _ => _ end] => fail
      | _ => let T := fresh "T" in
             destruct x eqn:T; try solve [absurd_test T]
      end
  end.

(** Decide a test by an answer already recorded. *)
Ltac known_test :=
  match goal with
  | H : ?x = _ |- context [match ?x with _ => _ end] => rewrite H
  end.

Ltac exec :=
  unfold_program;
  repeat (rewrite ?fd_lookup_head; first [known_test | split_test];
          unfold_program).

Lemma no_arguments argc : argc <= 1 -> (argc >? 1) = false.
Proof. intros H. rewrite Z.gtb_ltb. apply Z.ltb_ge. exact H. Qed.

(** Reading off the three components of a finished run. *)
Lemma run_eq {A} (tr tr' : list event) (st st' : State) (r r' : Res A) :
  (tr, st, r) = (tr', st', r') -> tr = tr' /\ st = st' /\ r = r'.
Proof. intros H. inversion H. auto. Qed.

Lemma Ret_eq {A} (a a' : A) : @Ret A a = Ret a' -> a = a'.
Proof. intros H. inversion H. reflexivity. Qed.

Lemma Halt_eq {A} (o o' : outcome) : @Halt A o = Halt o' -> o = o'.
Proof. intros H. inversion H. reflexivity. Qed.

Ltac read_run H :=
  apply run_eq in H;
  let Htr := fresh "Htr" in
  let Hst := fresh "Hst" in
  let Hr := fresh "Hr" in
  destruct H as (Htr & Hst & Hr);
  try discriminate Hr;
  try (apply Ret_eq in Hr);
  try (apply Halt_eq in Hr);
  try subst.

Lemma EvRead_eq fd c n d fd' c' n' d' :
  EvRead fd c n d = EvRead fd' c' n' d' ->
  fd = fd' /\ c = c' /\ n = n' /\ d = d'.
Proof. intros H. inversion H. auto. Qed.

Lemma EvSignOpen_eq m l pk sg r m' l' pk' sg' r' :
  EvSignOpen m l pk sg r = EvSignOpen m' l' pk' sg' r' ->
  m = m' /\ l = l' /\ pk = pk' /\ sg = sg' /\ r = r'.
Proof. intros H. inversion H. auto 6. Qed.

Lemma EvWrite_eq fd d fd' d' :
  EvWrite fd d = EvWrite fd' d' -> fd = fd' /\ d = d'.
Proof. intros H. inversion H. auto. Qed.

(** Membership in an explicit trace, one event at a time; events of
    another kind are dismissed. *)
Ltac in_cases H :=
  cbn [In] in H;
  repeat (destruct H as [H | H]; [try discriminate H |]);
  try contradiction H.

(** [challenge_hex] is filled exactly: 64 characters and the line feed. *)
Lemma challenge_hex_exact be t (avail hex : list Z) :
  negb (Z.of_nat (length (firstn (Z.to_nat n_random_bytes) avail))
        =? n_random_bytes) = false ->
  hexpcpy_lower (native_u32 be t ++ firstn (Z.to_nat n_random_bytes) avail)
                (Z.to_nat challenge_size) = Some hex ->
  length hex = 64%nat /\
  length (hex ++ [LF]) = 65%nat /\
  firstn (Z.to_nat sizeof_challenge_hex) (hex ++ [LF]) = hex ++ [LF] /\
  Forall (fun c => is_lower_hex_char c = true) hex.
Proof.
  intros _ E.
  pose proof (hexpcpy_lower_length _ _ _ E) as L.
  change (2 * Z.to_nat challenge_size)%nat with 64%nat in L.
  assert (L' : length (hex ++ [LF]) = 65%nat)
    by (rewrite length_app, L; reflexivity).
  repeat split; try assumption.
  - apply firstn_all2. rewrite L'. cbn. lia.
  - eapply hexpcpy_lower_alphabet; eassumption.
Qed.

Lemma native_u32_length be x : length (native_u32 be x) = 4%nat.
Proof. unfold native_u32. now destruct be. Qed.

(** The four bytes in memory determine the 32-bit value. *)
Lemma native_u32_roundtrip be x :
  0 <= x < 2 ^ 32 -> u32_of_native be (native_u32 be x) = x.
Proof.
  intros Hx.
  assert (H : forall i, 0 <= i ->
            Z.land (Z.shiftr x (8 * i)) 0xff = (x / 2 ^ (8 * i)) mod 2 ^ 8).
  { intros i Hi. change 0xff with (Z.ones 8).
    rewrite Z.land_ones, Z.shiftr_div_pow2 by lia. reflexivity. }
  unfold u32_of_native, native_u32.
  destruct be; cbn [rev app]; rewrite !H by lia;
    change (8 * 0) with 0; change (8 * 1) with 8;
    change (8 * 2) with 16; change (8 * 3) with 24;
    change (2 ^ 0) with 1; change (2 ^ 8) with 256;
    change (2 ^ 16) with 65536; change (2 ^ 24) with 16777216;
    change (2 ^ 32) with 4294967296 in Hx;
    Z.div_mod_to_equations; lia.
Qed.

Lemma to_u32_range x : 0 <= to_u32 x < 2 ^ 32.
Proof. apply Z.mod_pos_bound. reflexivity. Qed.

(** Rewrite with every recorded answer. *)
Ltac use_tests :=
  repeat match goal with
         | T : ?x = _ |- context [?x] => rewrite T
         end.

Lemma challenge_hex_not_denied (n : nat) (hex : list Z) :
  length (hex ++ [LF]) = 65%nat -> firstn n (hex ++ [LF]) = hex ++ [LF] ->
  firstn n (hex ++ [LF]) <> ACCESS_DENIED.
Proof. intros L -> E. rewrite E in L. discriminate L. Qed.

Lemma EvExeclp_eq f a e f' a' e' :
  EvExeclp f a e = EvExeclp f' a' e' -> e = e'.
Proof. intros H. inversion H. reflexivity. Qed.

Ltac is_closed x :=
  tryif (match x with context [?y] => is_var y end) then fail else idtac.

(** An equation between two writes that cannot hold. *)
Ltac refute_write H :=
  apply EvWrite_eq in H;
  let Hfd := fresh "Hfd" in
  let Hd := fresh "Hd" in
  destruct H as [Hfd Hd];
  first
    [ discriminate Hfd
    | lazymatch type of Hd with
      | ?d = _ => is_closed d; vm_compute in Hd; discriminate Hd
      end
    | exfalso; revert Hd;
      match goal with
      | Hneg : negb (_ =? n_random_bytes) = false,
        Hhex : hexpcpy_lower _ _ = Some _ |- _ =>
          destruct (challenge_hex_exact _ _ _ _ Hneg Hhex) as (_ & L & F & _);
          exact (challenge_hex_not_denied _ _ L F)
      end ].

(** Case analysis on membership in an explicit trace. *)
Ltac in_trace H :=
  cbn [In] in H;
  repeat (destruct H as [H | H];
          [ first [ discriminate H
                  | refute_write H
                  | apply EvExeclp_eq in H; first [discriminate H | idtac]
                  | idtac ] |]);
  try contradiction H.

(** An event that is in an explicit trace. *)
Ltac find_in := cbn [In]; repeat first [left; reflexivity | right].

(* ------------------------------------------------------------------ *)
(** ** The challenge                                                   *)

(** C5.  Every challenge that [make_challenge] hands back is exactly 32
    bytes: bytes 0-3 are the wall-clock time at generation truncated to
    32 bits, as that value lies in memory, and bytes 4-31 are the 28 bytes
    which the one [read] from the random source delivered. *)
Theorem make_challenge_contents (w : World) (st st' : State)
    (tr : list event) (challenge : list Z)
    (Hrun : make_challenge w st = (tr, st', Ret challenge)) :
  length challenge = 32%nat /\
  firstn 4 challenge = native_u32 (w_big_endian w) (to_u32 (w_time w)) /\
  u32_of_native (w_big_endian w) (firstn 4 challenge) = w_time w mod 2 ^ 32 /\
  exists fd avail,
    w_read w (File RANDOM_PATH) = Gives avail /\
    skipn 4 challenge = firstn 28 avail /\
    length (skipn 4 challenge) = 28%nat /\
    tr = [EvTime (w_time w); EvOpen RANDOM_PATH fd;
          EvRead fd 28 28 (skipn 4 challenge); EvClose fd].
Proof.
  revert Hrun. exec; intros Hrun; read_run Hrun.
  match goal with
  | Hneg : negb (_ =? n_random_bytes) = false,
    Hfd : w_open w RANDOM_PATH = Gives ?n,
    Havail : w_read w (File RANDOM_PATH) = Gives ?avail |- _ =>
      pose proof (random_read_length _ Hneg) as Hlen;
      apply negb_false_iff, Z.eqb_eq in Hneg;
      rewrite Hneg;
      set (random := firstn (Z.to_nat n_random_bytes) avail) in *;
      set (time := native_u32 (w_big_endian w) (to_u32 (w_time w)));
      assert (Hsplit : firstn 4 (time ++ random) = time /\
                       skipn 4 (time ++ random) = random)
        by (unfold time, native_u32; now destruct (w_big_endian w));
      destruct Hsplit as [-> ->];
      repeat split;
      [ rewrite length_app; unfold time; rewrite native_u32_length, Hlen;
        reflexivity
      | apply native_u32_roundtrip, to_u32_range
      | exists (Z.of_N n), avail; repeat split; assumption ]
  end.
Qed.

Lemma make_challenge_contents_witness :
  exists challenge,
    length challenge = 32%nat /\
    firstn 4 challenge = [0x00; 0xf1; 0x53; 0x65] /\
    skipn 4 challenge = map Z.of_nat (seq 1 28).
Proof.
  pose (w := sample_world 2000 sample_random (Gives sample_response) 0 None).
  pose (challenge := [0x00; 0xf1; 0x53; 0x65] ++ map Z.of_nat (seq 1 28)).
  assert (Hrun : make_challenge w initial_state =
                 ([EvTime 1700000000; EvOpen RANDOM_PATH 3;
                   EvRead 3 28 28 (map Z.of_nat (seq 1 28)); EvClose 3],
                  initial_state, Ret challenge)) by reflexivity.
  exists challenge.
  destruct (make_challenge_contents w _ _ _ _ Hrun) as (Hlen & Hfst & _).
  split; [exact Hlen |]. split; reflexivity.
Defined.

(** C8.  When the random source cannot be opened, cannot be read or gives
    fewer than 28 bytes, [make_challenge] ends the process with the fatal
    status after one [open] and at most one [read] (nothing is retried);
    the session ends the same way, without reading a response and without
    a denial; and the process of an unprivileged caller exits with 125,
    not with the status of a denial. *)
Theorem random_failure_is_fatal (w : World) (st : State)
    (Hrandom : random_unavailable w) :
  (exists tr st',
     make_challenge w st = (tr, st', Halt (Exited (exit_status st))) /\
     count is_open tr = 1%nat /\
     (count is_read tr <= 1)%nat /\
     last tr (EvExit 0) = EvExit (exit_status st)) /\
  (exists tr st',
     authenticate w st = (tr, st', Halt (Exited (exit_status st))) /\
     count is_open tr = 1%nat /\
     (count is_read tr <= 1)%nat /\
     never is_response_read tr = true /\
     ~ In (EvWrite STDOUT_FILENO ACCESS_DENIED) tr /\
     last tr (EvExit 0) = EvExit (exit_status st)) /\
  (forall argc, argc <= 1 -> w_geteuid w = 0 -> w_getuid w <> 0 ->
     snd (run w argc) = Exited 125).
Proof.
  assert (Hshort : forall avail : list Z,
            (length avail < 28)%nat ->
            negb (Z.of_nat (length (firstn (Z.to_nat n_random_bytes) avail))
                  =? n_random_bytes) = false -> False).
  { intros avail Hlt H. apply negb_false_iff, Z.eqb_eq in H.
    rewrite length_firstn in H. unfold n_random_bytes in H. lia. }
  unfold random_unavailable in Hrandom.
  split; [| split].
  - revert Hrandom. exec; intros Hrandom;
      try (exfalso; eapply Hshort; eassumption);
      do 2 eexists; (split; [reflexivity |]); cbn; repeat split; lia.
  - revert Hrandom. exec; intros Hrandom;
      try (exfalso; eapply Hshort; eassumption);
      do 2 eexists; (split; [reflexivity |]);
      (split; [reflexivity |]); (split; [cbn; lia |]);
      (split; [cbn; now rewrite ?andb_false_r |]); (split; [| reflexivity]);
      cbn; intros Hin; repeat (destruct Hin as [Hin | Hin]; try discriminate Hin);
      exact Hin.
  - intros argc Hargc Heuid Huid.
    pose proof (no_arguments argc Hargc) as Hno_args.
    apply Z.eqb_neq in Huid.
    revert Hrandom. unfold run. unfold_program.
    rewrite Hno_args, Heuid, Huid. exec; intros Hrandom;
      try (exfalso; eapply Hshort; eassumption); reflexivity.
Qed.


Lemma random_failure_is_fatal_witness :
  snd (run (sample_world 2000 (Gives [1; 2; 3]) (Gives sample_response) 0 None) 1)
  = Exited 125.
Proof.
  refine (proj2 (proj2 (random_failure_is_fatal
            (sample_world 2000 (Gives [1; 2; 3]) (Gives sample_response) 0 None)
            initial_state _)) 1 _ _ _).
  - cbn. lia.
  - lia.
  - reflexivity.
  - discriminate.
Defined.

(* ------------------------------------------------------------------ *)
(** ** The session                                                     *)

(** C1.  Whenever a session hands a message to the verification
    primitive, that message is the 65-byte text the session made from its
    own challenge: the 64 characters of 0-9a-f that encode the 32 bytes
    [make_challenge] returned, followed by one line feed, passed with
    length 65; the session wrote exactly these bytes to stdout before the
    call, and it makes no other call of the primitive. *)
Theorem verification_uses_own_challenge (w : World) (st st' : State)
    (tr : list event) (r : Res bool)
    (Hrun : authenticate w st = (tr, st', r))
    (m : list Z) (mlen : Z) (pk sig : list Z) (ret : Z)
    (Hverify : In (EvSignOpen m mlen pk sig ret) tr) :
  exists challenge hex tr_c st_c,
    make_challenge w st = (tr_c, st_c, Ret challenge) /\
    length challenge = 32%nat /\
    hexpcpy_lower challenge 32 = Some hex /\
    length hex = 64%nat /\
    Forall (fun c => is_lower_hex_char c = true) hex /\
    m = hex ++ [LF] /\
    mlen = 65 /\
    length m = 65%nat /\
    In (EvWrite STDOUT_FILENO m) (before is_sign_open tr) /\
    count is_sign_open tr = 1%nat /\
    ret = w_sign_open w m pk sig.
Proof.
  revert Hrun. exec; intros Hrun; read_run Hrun; in_cases Hverify.
  all: apply EvSignOpen_eq in Hverify;
       destruct Hverify as (Hm & Hl & Hpk & Hsig & Hret).
  all: match goal with
       | Hneg : negb (_ =? n_random_bytes) = false,
         Hhex : hexpcpy_lower _ _ = Some ?l |- _ =>
           destruct (challenge_hex_exact _ _ _ _ Hneg Hhex)
             as (Hlen & Hlen' & Hfirst & Halpha);
           pose proof (random_read_length _ Hneg) as Hrandom
       end.
  all: rewrite Hfirst in *; subst m mlen pk sig.
  all: eexists; exists l; do 2 eexists.
  all: split; [exec; reflexivity |].
  all: split; [rewrite length_app, native_u32_length, Hrandom; reflexivity |].
  all: split; [assumption |].
  all: repeat split; try assumption; try reflexivity.
  all: try (cbn; auto 12).
Qed.

Lemma verification_uses_own_challenge_witness :
  exists m pk sig,
    In (EvSignOpen m 65 pk sig 0)
       (fst (fst (authenticate
                    (sample_world 2000 sample_random (Gives sample_response) 0 None)
                    initial_state))) /\
    length m = 65%nat.
Proof.
  pose (w := sample_world 2000 sample_random (Gives sample_response) 0 None).
  pose (m := chars "00f153650102030405060708090a0b0c0d0e0f101112131415161718191a1b1c"
             ++ [LF]).
  pose (pk := repeat 0x5a 32).
  pose (sig := repeat 0xaa 64).
  assert (Hin : In (EvSignOpen m 65 pk sig 0)
                   (fst (fst (authenticate w initial_state))))
    by (vm_compute; do 14 right; left; reflexivity).
  exists m, pk, sig. split; [exact Hin |].
  destruct (verification_uses_own_challenge w initial_state
              (snd (fst (authenticate w initial_state)))
              (fst (fst (authenticate w initial_state)))
              (snd (authenticate w initial_state))
              eq_refl m 65 pk sig 0 Hin)
    as (challenge & hex & tr_c & st_c & _ & _ & _ & _ & _ & _ & _ & Hlen & _).
  exact Hlen.
Defined.

(** C2.  For every response read from stdin (a [read] that succeeds): if
    the number of bytes read is not exactly 129, or the byte at offset 128
    is not a line feed, the session ends denied -- it returns false after
    writing the denial -- and it has neither decoded the response, nor
    opened the public key file, nor read from it, nor called the
    verification primitive. *)
Theorem malformed_response_denied (w : World) (st st' : State)
    (tr : list event) (r : Res bool)
    (Hrun : authenticate w st = (tr, st', r))
    (n : Z) (data : list Z)
    (Hread : In (EvRead STDIN_FILENO 256 n data) tr)
    (Hn : 0 <= n)
    (Hbad : n <> 129 \/ nth 128 data 0 <> LF) :
  r = Ret false /\
  last tr (EvExit 0) = EvWrite STDOUT_FILENO ACCESS_DENIED /\
  never is_unhex tr = true /\
  never is_key_open tr = true /\
  never is_sign_open tr = true /\
  count is_read tr = 2%nat /\
  n = Z.of_nat (length data).
Proof.
  revert Hrun. exec; intros Hrun; read_run Hrun; in_cases Hread.
  all: try (apply EvRead_eq in Hread; destruct Hread as (_ & Hc & Hn' & Hd)).
  all: try (vm_compute in Hc; discriminate Hc).
  all: subst n data.
  all: try (exfalso; lia).
  all: try (exfalso;
            match goal with
            | T : _ && _ = true |- _ =>
                apply well_framed in T; destruct T; destruct Hbad; contradiction
            end).
  repeat split; reflexivity.
Qed.

Lemma malformed_response_denied_witness :
  snd (authenticate
         (sample_world 2000 sample_random (Gives (repeat (chr "A") 128)) 0 None)
         initial_state)
  = Ret false.
Proof.
  pose (w := sample_world 2000 sample_random (Gives (repeat (chr "A") 128)) 0 None).
  refine (proj1 (malformed_response_denied w initial_state
                   (snd (fst (authenticate w initial_state)))
                   (fst (fst (authenticate w initial_state)))
                   (snd (authenticate w initial_state))
                   eq_refl 128 (repeat (chr "A") 128) _ _ _)).
  - vm_compute. do 9 right. left. reflexivity.
  - lia.
  - left. lia.
Defined.

(* ------------------------------------------------------------------ *)
(** ** The process                                                     *)

(** C6.  The process ends in exactly one of five ways.  It exits with 125
    exactly when an argument was supplied or some environment, I/O or
    identity-change error occurred; with 1 exactly when the session wrote
    the denial; with 126 exactly when the exec of the shell failed with an
    error other than ENOENT; with 127 exactly when it failed with ENOENT
    (no such file); and its image is replaced by the shell, so that it
    never returns, exactly when that exec succeeded.  The status of an
    exit is the one passed to [exit]. *)
Theorem exit_status_table (w : World) (argc : Z) (tr : list event)
    (o : outcome) (Hrun : run w argc = (tr, o)) :
  (o = Exited 125 \/ o = Exited 1 \/ o = Exited 126 \/ o = Exited 127 \/
   o = Replaced SHELL_PATH ["sh"%string]) /\
  (o = Exited 125 <-> 1 < argc \/ existsb is_fatal tr = true) /\
  (o = Exited 1 <-> In (EvWrite STDOUT_FILENO ACCESS_DENIED) tr) /\
  (o = Exited 126 <->
     exists e, e <> ENOENT /\
               In (EvExeclp SHELL_PATH ["sh"%string] (Some e)) tr) /\
  (o = Exited 127 <->
     In (EvExeclp SHELL_PATH ["sh"%string] (Some ENOENT)) tr) /\
  (o = Replaced SHELL_PATH ["sh"%string] <->
     In (EvExeclp SHELL_PATH ["sh"%string] None) tr) /\
  (forall s, o = Exited s <-> last tr (EvSleep 0) = EvExit s).
Proof.
  revert Hrun. unfold run. exec; intros Hrun.
  all: apply pair_equal_spec in Hrun; destruct Hrun as [<- <-].
  all: change (1 + 126) with 127; change (0 + 126) with 126.
  all: split; [auto 6 |].
  all: split;
    [ split;
      [ intros Ho; try discriminate Ho;
        first [ left; apply Z.gtb_lt; assumption
              | right; cbn [existsb is_fatal]; use_tests; reflexivity ]
      | intros [Hargs | Hfatal];
        [ first [ reflexivity
                | exfalso; apply Z.gtb_lt in Hargs; congruence ]
        | first [ reflexivity
                | exfalso; revert Hfatal; cbn [existsb is_fatal]; use_tests;
                  intros Hfatal; vm_compute in Hfatal; discriminate Hfatal ] ] ] |].
  all: split;
    [ split;
      [ intros Ho; try discriminate Ho; find_in
      | intros Hin; first [reflexivity | exfalso; in_trace Hin] ] |].
  all: split;
    [ split;
      [ intros Ho; try discriminate Ho;
        match goal with
        | T : (?e =? ENOENT) = false |- _ =>
            exists e; split; [apply Z.eqb_neq; exact T | find_in]
        end
      | intros (e & Hne & Hin);
        first [ reflexivity
              | exfalso; in_trace Hin;
                match goal with
                | T : (?x =? ENOENT) = true |- _ =>
                    apply Z.eqb_eq in T; congruence
                end ] ] |].
  all: split;
    [ split;
      [ intros Ho; try discriminate Ho;
        match goal with
        | T : (?e =? ENOENT) = true |- _ =>
            apply Z.eqb_eq in T; rewrite <- T; find_in
        end
      | intros Hin;
        first [ reflexivity
              | exfalso; in_trace Hin;
                match goal with
                | T : (?x =? ENOENT) = false |- _ =>
                    apply Z.eqb_neq in T; congruence
                end ] ] |].
  all: split;
    [ split;
      [ intros Ho; try discriminate Ho; find_in
      | intros Hin; first [reflexivity | exfalso; in_trace Hin] ] |].
  all: intros status; cbn [last]; split; intros H; try discriminate H;
       inversion H; reflexivity.
Qed.

Lemma exit_status_table_witness :
  snd (run (sample_world 2000 sample_random (Gives sample_response) 0 (Some ENOENT)) 1)
  = Exited 127.
Proof.
  pose (w := sample_world 2000 sample_random (Gives sample_response) 0 (Some ENOENT)).
  destruct (exit_status_table w 1 (fst (run w 1)) (snd (run w 1)) eq_refl)
    as (_ & _ & _ & _ & H127 & _).
  apply H127. vm_compute. do 20 right. left. reflexivity.
Defined.

(** C9.  When a command-line argument is supplied, the whole run is one
    message on stderr and the fatal exit: no file is opened, nothing is
    read, and nothing -- no standby notice, no challenge -- is written to
    stdout. *)
Theorem arguments_rejected (w : World) (argc : Z) (Hargs : 1 < argc) :
  run w argc =
    ([EvWrite STDERR_FILENO (FAIL_msg "no arguments are allowed");
      EvExit 125],
     Exited 125) /\
  never is_open (fst (run w argc)) = true /\
  never is_read (fst (run w argc)) = true /\
  never is_stdout_write (fst (run w argc)) = true /\
  never is_authentication (fst (run w argc)) = true.
Proof.
  assert (Hrun : run w argc =
            ([EvWrite STDERR_FILENO (FAIL_msg "no arguments are allowed");
              EvExit 125],
             Exited 125)).
  { apply Z.gtb_lt in Hargs. unfold run. unfold_program. rewrite Hargs.
    reflexivity. }
  rewrite Hrun. repeat split.
Qed.

Lemma arguments_rejected_witness :
  run (sample_world 2000 sample_random (Gives sample_response) 0 None) 2 =
    ([EvWrite STDERR_FILENO (FAIL_msg "no arguments are allowed");
      EvExit 125],
     Exited 125).
Proof.
  refine (proj1 (arguments_rejected _ 2 _)). lia.
Defined.

(** C10.  For a caller whose effective and real uid are both 0, nothing
    of the authentication happens -- no standby notice or challenge on
    stdout, no pause, no read from stdin or from any file, no file opened,
    no decoding, no verification -- and, no argument being passed, the
    first thing after the two uid queries is [setgid( 0 )], then
    [setuid( 0 )], then the exec of the shell, which replaces the process
    image when all three succeed. *)
Theorem root_caller_skips_authentication (w : World) (argc : Z)
    (Heuid : w_geteuid w = 0) (Huid : w_getuid w = 0) :
  never is_authentication (fst (run w argc)) = true /\
  (argc <= 1 ->
   (exists r rest,
      fst (run w argc) = EvGeteuid 0 :: EvGetuid 0 :: EvSetgid 0 r :: rest) /\
   (w_setgid w 0 = None ->
    exists r rest,
      fst (run w argc) =
        EvGeteuid 0 :: EvGetuid 0 :: EvSetgid 0 0 :: EvSetuid 0 r :: rest) /\
   (w_setgid w 0 = None -> w_setuid w 0 = None ->
    exists e rest,
      fst (run w argc) =
        EvGeteuid 0 :: EvGetuid 0 :: EvSetgid 0 0 :: EvSetuid 0 0 ::
        EvExeclp SHELL_PATH ["sh"%string] e :: rest) /\
   (w_setgid w 0 = None -> w_setuid w 0 = None ->
    w_execlp w SHELL_PATH = None ->
    run w argc =
      ([EvGeteuid 0; EvGetuid 0; EvSetgid 0 0; EvSetuid 0 0;
        EvExeclp SHELL_PATH ["sh"%string] None],
       Replaced SHELL_PATH ["sh"%string]))).
Proof.
  unfold run. unfold_program. rewrite Heuid, Huid.
  exec; (split; [reflexivity |]); intros Hargs;
    try (apply Z.gtb_lt in T; exfalso; lia);
    repeat split; intros; try discriminate;
    try reflexivity; do 2 eexists; reflexivity.
Qed.

Lemma root_caller_skips_authentication_witness :
  run (sample_world 0 sample_random (Gives sample_response) 0 None) 1 =
    ([EvGeteuid 0; EvGetuid 0; EvSetgid 0 0; EvSetuid 0 0;
      EvExeclp SHELL_PATH ["sh"%string] None],
     Replaced SHELL_PATH ["sh"%string]).
Proof.
  refine (proj2 (proj2 (proj2
            (proj2 (root_caller_skips_authentication _ 1 _ _) _))) _ _ _);
    first [lia | reflexivity].
Defined.

Import Protocol.
(* ================================================================== *)
(** * Further properties of the codec                                  *)
(* ================================================================== *)

Lemma hexpcpy_lower_none inp n :
  (length inp < n)%nat -> hexpcpy_lower inp n = None.
Proof.
  revert inp. induction n as [| n IH]; intros inp Hn; [lia |].
  destruct inp as [| c p]; [reflexivity |].
  cbn [hexpcpy_lower]. rewrite IH by (simpl in Hn; lia). reflexivity.
Qed.

Lemma hexpcpy_lower_firstn inp n :
  hexpcpy_lower (firstn n inp) n = hexpcpy_lower inp n.
Proof.
  revert inp. induction n as [| n IH]; intros inp; [reflexivity |].
  destruct inp as [| c p]; [reflexivity |].
  cbn [firstn hexpcpy_lower]. now rewrite IH.
Qed.

(** X1.  [hexpcpy_lower] fills its buffer exactly when the input holds
    the [n] bytes it is asked to encode; it then writes two characters
    of 0-9a-f per byte, and what it writes depends on those [n] bytes
    only. *)
Theorem hexpcpy_lower_defined (inp : list Z) (n : nat) :
  (hexpcpy_lower inp n <> None <-> (n <= length inp)%nat) /\
  (forall out, hexpcpy_lower inp n = Some out ->
     length out = (2 * n)%nat /\
     Forall (fun c => is_lower_hex_char c = true) out /\
     hexpcpy_lower (firstn n inp) n = Some out).
Proof.
  split.
  - split.
    + intros H. destruct (Nat.le_gt_cases n (length inp)) as [Hle | Hgt];
        [exact Hle |].
      exfalso. apply H, hexpcpy_lower_none. exact Hgt.
    + intros Hle E. destruct (hexpcpy_lower_total inp n Hle) as [out Hout].
      congruence.
  - intros out E. repeat split.
    + eapply hexpcpy_lower_length; eassumption.
    + eapply hexpcpy_lower_alphabet; eassumption.
    + now rewrite hexpcpy_lower_firstn.
Qed.

Lemma hexpcpy_lower_defined_witness :
  length (chars "00ff") = (2 * 2)%nat.
Proof.
  exact (proj1 (proj2 (hexpcpy_lower_defined [0; 255; 7] 2)
                  (chars "00ff") eq_refl)).
Defined.

(** X2.  Encoding is done byte by byte: the text for [a] followed by [b]
    is the text for [a] followed by the text for the first [m] bytes of
    [b]. *)
Theorem hexpcpy_lower_app (a b : list Z) (m : nat) :
  hexpcpy_lower (a ++ b) (length a + m) =
  match hexpcpy_lower a (length a), hexpcpy_lower b m with
  | Some ha, Some hb => Some (ha ++ hb)
  | _, _ => None
  end.
Proof.
  induction a as [| c a IH].
  - cbn [app length Nat.add hexpcpy_lower]. now destruct (hexpcpy_lower b m).
  - cbn [app length Nat.add hexpcpy_lower]. rewrite IH.
    destruct (hexpcpy_lower a (length a)); [| reflexivity].
    destruct (hexpcpy_lower b m); reflexivity.
Qed.

Lemma unhexpcpy_none inp n :
  (length inp < 2 * n)%nat -> unhexpcpy inp n = None.
Proof.
  revert inp. induction n as [| n IH]; intros inp Hn; [lia |].
  destruct inp as [| c1 [| c2 p]]; try reflexivity.
  cbn [unhexpcpy]. rewrite IH by (simpl in Hn; lia). reflexivity.
Qed.

Lemma unhexpcpy_firstn inp n :
  unhexpcpy (firstn (2 * n) inp) n = unhexpcpy inp n.
Proof.
  revert inp. induction n as [| n IH]; intros inp; [reflexivity |].
  replace (2 * S n)%nat with (S (S (2 * n))) by lia.
  destruct inp as [| c1 [| c2 p]]; try reflexivity.
  cbn [firstn unhexpcpy]. now rewrite IH.
Qed.

Lemma Some_eq {A} (a b : A) : Some a = Some b -> a = b.
Proof. intros H. inversion H. reflexivity. Qed.

Lemma to_byte_is_byte z : is_byte (to_byte z).
Proof. apply Z.mod_pos_bound. reflexivity. Qed.

Lemma unhexpcpy_bytes inp n out :
  unhexpcpy inp n = Some out -> Forall is_byte out.
Proof.
  revert inp out. induction n as [| n IH]; intros inp out.
  - intros H. apply Some_eq in H. subst out. constructor.
  - destruct inp as [| c1 [| c2 p]]; try discriminate.
    cbn [unhexpcpy]. destruct (unhexpcpy p n) as [out' |] eqn:E; [| discriminate].
    intros H. apply Some_eq in H. subst out.
    constructor; [apply to_byte_is_byte | eapply IH; eassumption].
Qed.

Lemma unhexpcpy_length inp n out :
  unhexpcpy inp n = Some out -> length out = n.
Proof.
  intros E. destruct (Nat.le_gt_cases (2 * n) (length inp)) as [Hle | Hgt].
  - destruct (unhexpcpy_total inp n Hle) as (out' & Hout & L). congruence.
  - rewrite unhexpcpy_none in E by exact Hgt. discriminate.
Qed.

(** X3.  [unhexpcpy] fills its buffer exactly when the input holds the
    [2 * n] characters it is asked to decode, whatever they are; it then
    writes [n] bytes (values 0..255), and what it writes depends on those
    [2 * n] characters only. *)
Theorem unhexpcpy_defined (inp : list Z) (n : nat) :
  (unhexpcpy inp n <> None <-> (2 * n <= length inp)%nat) /\
  (forall out, unhexpcpy inp n = Some out ->
     length out = n /\
     Forall is_byte out /\
     unhexpcpy (firstn (2 * n) inp) n = Some out).
Proof.
  split.
  - split.
    + intros H. destruct (Nat.le_gt_cases (2 * n) (length inp)) as [Hle | Hgt];
        [exact Hle |].
      exfalso. apply H, unhexpcpy_none. exact Hgt.
    + intros Hle E. destruct (unhexpcpy_total inp n Hle) as (out & Hout & _).
      congruence.
  - intros out E. repeat split.
    + eapply unhexpcpy_length; eassumption.
    + eapply unhexpcpy_bytes; eassumption.
    + now rewrite unhexpcpy_firstn.
Qed.

Lemma unhexpcpy_defined_witness :
  length [0; 0x1a] = 2%nat.
Proof.
  exact (proj1 (proj2 (unhexpcpy_defined (chars "zzq!?") 2) [0; 0x1a] eq_refl)).
Defined.

(** X4.  Decoding is done pair by pair: [k] bytes from a text whose first
    [2 * k] characters are [s] followed by [m] bytes from the rest. *)
Theorem unhexpcpy_app (s rest : list Z) (k m : nat)
    (Hs : length s = (2 * k)%nat) :
  unhexpcpy (s ++ rest) (k + m) =
  match unhexpcpy s k, unhexpcpy rest m with
  | Some a, Some b => Some (a ++ b)
  | _, _ => None
  end.
Proof.
  revert s Hs. induction k as [| k IH]; intros s Hs.
  - destruct s; [| discriminate Hs].
    cbn [app Nat.add unhexpcpy]. now destruct (unhexpcpy rest m).
  - destruct s as [| c1 [| c2 s]]; try (simpl in Hs; lia).
    cbn [app Nat.add unhexpcpy]. rewrite IH by (simpl in Hs; lia).
    destruct (unhexpcpy s k); [| reflexivity].
    destruct (unhexpcpy rest m); reflexivity.
Qed.

Lemma unhexpcpy_app_witness :
  unhexpcpy (chars "3f" ++ chars "A0" ++ [LF]) (1 + 1) = Some ([0x3f] ++ [0xa0]).
Proof. exact (unhexpcpy_app (chars "3f") (chars "A0" ++ [LF]) 1 1 eq_refl). Defined.

(** The two characters written for the byte a pair of hexadecimal
    characters decodes to are the pair in lower case. *)
Lemma pair_lowercased c1 c2 :
  is_hex_char c1 = true -> is_hex_char c2 = true ->
  let b := to_byte (Z.lor (to_byte (Z.shiftl (decoded_hex_digit c1) 4))
                          (to_byte (Z.shiftl (decoded_hex_digit c2) 0))) in
  encoded_hex_char (to_byte (Z.shiftr b 4)) = to_lower c1 /\
  encoded_hex_char (to_byte (Z.shiftr b 0)) = to_lower c2.
Proof.
  intros H1 H2.
  pose proof (is_hex_char_is_byte _ H1) as B1.
  pose proof (is_hex_char_is_byte _ H2) as B2.
  pose proof (byte_cases (fun c1 =>
     forallb (fun c2 =>
       implb (is_hex_char c1 && is_hex_char c2)
         (let b := to_byte (Z.lor (to_byte (Z.shiftl (decoded_hex_digit c1) 4))
                          (to_byte (Z.shiftl (decoded_hex_digit c2) 0))) in
          (encoded_hex_char (to_byte (Z.shiftr b 4)) =? to_lower c1) &&
          (encoded_hex_char (to_byte (Z.shiftr b 0)) =? to_lower c2)))
       (map Z.of_nat (seq 0 256)))) as H.
  assert (Hall : forallb (fun c1 =>
     forallb (fun c2 =>
       implb (is_hex_char c1 && is_hex_char c2)
         (let b := to_byte (Z.lor (to_byte (Z.shiftl (decoded_hex_digit c1) 4))
                          (to_byte (Z.shiftl (decoded_hex_digit c2) 0))) in
          (encoded_hex_char (to_byte (Z.shiftr b 4)) =? to_lower c1) &&
          (encoded_hex_char (to_byte (Z.shiftr b 0)) =? to_lower c2)))
       (map Z.of_nat (seq 0 256))) (map Z.of_nat (seq 0 256)) = true)
    by (vm_compute; reflexivity).
  specialize (H Hall c1 B1). cbv beta in H.
  pose proof (byte_cases _ H c2 B2) as H'. cbv beta in H'.
  rewrite H1, H2 in H'. cbn [andb implb] in H'.
  apply andb_true_iff in H'. destruct H' as [E1 E2].
  split; now apply Z.eqb_eq.
Qed.

(** X5.  The other direction of the round trip holds up to case: a text
    of [2 * n] hexadecimal characters, decoded and encoded again, comes
    back in lower case. *)
Theorem encode_decode_lowercases (s : list Z) (n : nat)
    (Hlen : length s = (2 * n)%nat)
    (Hhex : Forall (fun c => is_hex_char c = true) s) :
  exists b,
    unhexpcpy s n = Some b /\
    hexpcpy_lower b n = Some (map to_lower s).
Proof.
  revert s Hlen Hhex. induction n as [| n IH]; intros s Hlen Hhex.
  - destruct s; [| discriminate Hlen]. exists []. split; reflexivity.
  - destruct s as [| c1 [| c2 s]]; try (simpl in Hlen; lia).
    inversion Hhex as [| ? ? H1 Hhex']; subst.
    inversion Hhex' as [| ? ? H2 Hhex'']; subst.
    destruct (IH s) as (b & Hdec & Henc); [simpl in Hlen; lia | assumption |].
    destruct (pair_lowercased c1 c2 H1 H2) as [E1 E2]. cbv zeta in E1, E2.
    eexists. split.
    + cbn [unhexpcpy]. rewrite Hdec. reflexivity.
    + cbn [hexpcpy_lower map]. rewrite Henc, E1, E2. reflexivity.
Qed.

Lemma encode_decode_lowercases_witness :
  exists b,
    unhexpcpy (chars "3Fa0") 2 = Some b /\
    hexpcpy_lower b 2 = Some (chars "3fa0").
Proof.
  refine (encode_decode_lowercases (chars "3Fa0") 2 eq_refl _).
  repeat constructor.
Defined.

(** X6.  Distinct byte sequences have distinct encodings. *)
Theorem hexpcpy_lower_injective (a b : list Z) (h : list Z)
    (Ha : Forall is_byte a) (Hb : Forall is_byte b)
    (Ea : hexpcpy_lower a (length a) = Some h)
    (Eb : hexpcpy_lower b (length b) = Some h) :
  a = b.
Proof.
  assert (Hdec : forall x, Forall is_byte x ->
            forall hx, hexpcpy_lower x (length x) = Some hx ->
            unhexpcpy hx (length x) = Some x).
  { intros x Hx. induction Hx as [| c x Hc Hx IH]; intros hx E.
    - apply Some_eq in E. subst hx. reflexivity.
    - cbn [length hexpcpy_lower] in E.
      destruct (hexpcpy_lower x (length x)) as [hx' |]; [| discriminate E].
      apply Some_eq in E. subst hx.
      cbn [length unhexpcpy]. rewrite (IH hx' eq_refl).
      now rewrite (byte_roundtrip c Hc). }
  pose proof (hexpcpy_lower_length _ _ _ Ea) as La.
  pose proof (hexpcpy_lower_length _ _ _ Eb) as Lb.
  assert (Hl : length a = length b) by lia.
  pose proof (Hdec a Ha h Ea) as Da.
  pose proof (Hdec b Hb h Eb) as Db.
  rewrite Hl in Da. congruence.
Qed.

Lemma hexpcpy_lower_injective_witness : [0x3f; 0xa0] = [0x3f; 0xa0].
Proof.
  refine (hexpcpy_lower_injective [0x3f; 0xa0] [0x3f; 0xa0] (chars "3fa0")
            _ _ eq_refl eq_refl);
    repeat constructor; unfold is_byte; lia.
Defined.

(** X7.  The decoder sees a character through its five low bits only, so
    it gives the same nibble whether [char] is signed or unsigned, and a
    byte with the high bit set decodes like the character 128 below. *)
Theorem decoded_hex_digit_low_bits (c c' : Z)
    (Hlow : Z.land c 0x1f = Z.land c' 0x1f) :
  decoded_hex_digit c = decoded_hex_digit c' /\
  decoded_hex_digit (as_signed_char c) = decoded_hex_digit c /\
  decoded_hex_digit (c + 128) = decoded_hex_digit c.
Proof.
  assert (Hshift : forall k, Z.land (c + k * 2 ^ 5) 0x1f = Z.land c 0x1f).
  { intros k. change 0x1f with (Z.ones 5). rewrite !Z.land_ones by lia.
    now rewrite Z.mod_add by lia. }
  unfold decoded_hex_digit. repeat split.
  - now rewrite Hlow.
  - unfold as_signed_char. destruct (c <? 128); [reflexivity |].
    replace (c - 256) with (c + (-8) * 2 ^ 5) by lia. now rewrite Hshift.
  - replace (c + 128) with (c + 4 * 2 ^ 5) by lia. now rewrite Hshift.
Qed.

Lemma decoded_hex_digit_low_bits_witness :
  decoded_hex_digit (chr "Q") = decoded_hex_digit (chr "1").
Proof.
  exact (proj1 (decoded_hex_digit_low_bits (chr "Q") (chr "1") eq_refl)).
Defined.

(** X8.  The two tables are inverse on nibbles: the character written
    for a nibble is one of 0-9a-f and decodes to that nibble, whatever
    the bits above the low four. *)
Theorem decoded_encoded_nibble (d : Z) :
  decoded_hex_digit (encoded_hex_char d) = Z.land d 0x0f /\
  is_lower_hex_char (encoded_hex_char d) = true /\
  encoded_hex_char (d + 16) = encoded_hex_char d.
Proof.
  assert (Hr : 0 <= Z.land d 0x0f < Z.of_nat 16).
  { change 0x0f with (Z.ones 4). rewrite Z.land_ones by lia.
    apply Z.mod_pos_bound. reflexivity. }
  repeat split.
  - pose proof (range_cases 16
      (fun i => decoded_hex_digit (nth (Z.to_nat i) encoded_hex_table 0) =? i)
      eq_refl _ Hr) as H.
    cbv beta in H. apply Z.eqb_eq in H. exact H.
  - apply encoded_hex_char_lower.
  - unfold encoded_hex_char. do 2 f_equal.
    change 0x0f with (Z.ones 4). rewrite !Z.land_ones by lia.
    replace (d + 16) with (d + 1 * 2 ^ 4) by lia. now rewrite Z.mod_add by lia.
Qed.

(* ================================================================== *)
(** * Further properties of the program                                *)
(* ================================================================== *)

Lemma fd_remove_head fd s t : fd_remove fd ((fd, s) :: t) = fd_remove fd t.
Proof. cbn [fd_remove]. now rewrite Z.eqb_refl. Qed.

Lemma fd_lookup_removed fd t : fd_lookup fd (fd_remove fd t) = None.
Proof.
  induction t as [| [fd' s] t IH]; [reflexivity |].
  cbn [fd_remove]. destruct (fd' =? fd) eqn:E; [exact IH |].
  cbn [fd_lookup]. now rewrite E.
Qed.

Lemma fd_remove_no_files fd t :
  forallb (fun e => negb (refers_to_file e)) t = true ->
  forallb (fun e => negb (refers_to_file e)) (fd_remove fd t) = true.
Proof.
  induction t as [| [fd' s] t IH]; [reflexivity |].
  cbn [forallb fd_remove]. intros [H1 H2]%andb_true_iff.
  destruct (fd' =? fd); [now apply IH |].
  cbn [forallb]. now rewrite H1, IH.
Qed.

Lemma key_read_length (avail : list Z) :
  negb (Z.of_nat (length (firstn (Z.to_nat sizeof_public_key) avail))
        =? sizeof_public_key) = false ->
  length (firstn (Z.to_nat sizeof_public_key) avail) = 32%nat.
Proof.
  intros H. apply negb_false_iff, Z.eqb_eq in H.
  unfold sizeof_public_key in *. lia.
Qed.

(** The texts of the diagnostics start with the program name and end
    the line. *)
Lemma ERROR_text s err :
  ERROR_msg s ++ err ++ [LF] =
  chars "su: " ++ (chars s ++ chars ": " ++ err) ++ [LF].
Proof.
  unfold ERROR_msg. change (chars PROGRAM ++ chars ": ") with (chars "su: ").
  change (chars PROGRAM) with (chars "su").
  change (chars "su: ") with (chars "su" ++ chars ": ").
  now rewrite <- !app_assoc.
Qed.

Lemma FAIL_text s : FAIL_msg s = chars "su: " ++ chars s ++ [LF].
Proof.
  unfold FAIL_msg. change (chars PROGRAM) with (chars "su").
  change (chars "su: ") with (chars "su" ++ chars ": ").
  now rewrite <- !app_assoc.
Qed.

(** Evaluate [written] on an explicit trace. *)
Ltac eval_written :=
  unfold STDOUT_FILENO, STDERR_FILENO, STDIN_FILENO;
  cbn [written Z.eqb Pos.eqb];
  rewrite ?app_nil_r.

(* ------------------------------------------------------------------ *)
(** ** The public key                                                  *)

(** X9.  When the public key file cannot be opened, cannot be read or
    gives fewer than 32 bytes, [response_answers_challenge] ends the
    process with the fatal status after one [open] and at most one
    [read]; the verification primitive is not called, and stderr names
    the key file, with the reason of the call that failed. *)
Theorem key_failure_is_fatal (w : World) (st : State)
    (sig msg : list Z) (msg_len : Z) (Hkey : key_unavailable w) :
  exists tr st',
    response_answers_challenge w sig msg msg_len st =
      (tr, st', Halt (Exited (exit_status st))) /\
    never is_sign_open tr = true /\
    count is_open tr = 1%nat /\
    (count is_read tr <= 1)%nat /\
    (written STDERR_FILENO tr =
       ERROR_msg PUBLIC_KEY_PATH ++ w_strerror w (errno st') ++ [LF] \/
     written STDERR_FILENO tr =
       FAIL_msg ("insufficient data from " ++ PUBLIC_KEY_PATH)) /\
    last tr (EvSleep 0) = EvExit (exit_status st).
Proof.
  assert (Hshort : forall avail : list Z,
            (length avail < 32)%nat ->
            negb (Z.of_nat (length (firstn (Z.to_nat sizeof_public_key) avail))
                  =? sizeof_public_key) = false -> False).
  { intros avail Hlt H%key_read_length. rewrite length_firstn in H. lia. }
  unfold key_unavailable in Hkey. revert Hkey.
  exec; intros Hkey; try (exfalso; eapply Hshort; eassumption);
    do 2 eexists; (split; [reflexivity |]);
    (split; [reflexivity |]); (split; [reflexivity |]);
    (split; [cbn; lia |]); (split; [| reflexivity]);
    eval_written; cbn [errno set_errno]; auto.
Qed.

Lemma key_failure_is_fatal_witness :
  exists tr st',
    response_answers_challenge short_key_world [] [] 0 initial_state =
      (tr, st', Halt (Exited 125)) /\
    never is_sign_open tr = true.
Proof.
  assert (Hkey : key_unavailable short_key_world) by (cbn; lia).
  destruct (key_failure_is_fatal short_key_world initial_state [] [] 0 Hkey)
    as (tr & st' & Hrun & Hnever & _).
  exists tr, st'. split; assumption.
Defined.

(** X10.  When the key file opens and has at least 32 bytes, exactly its
    first 32 bytes are the key (whatever follows them is ignored): the
    file is read once and closed, then the primitive is called once on
    the first [msg_len] bytes of the message, that key and the signature,
    and the answer is true exactly when the primitive returns 0. *)
Theorem response_answers_challenge_result (w : World) (st : State)
    (sig msg : list Z) (msg_len : Z) (n : N) (avail : list Z)
    (Hopen : w_open w PUBLIC_KEY_PATH = Gives n)
    (Hread : w_read w (File PUBLIC_KEY_PATH) = Gives avail)
    (Hlen : (32 <= length avail)%nat) :
  let fd := Z.of_N n in
  let pk := firstn 32 avail in
  let m := firstn (Z.to_nat msg_len) msg in
  let ret := w_sign_open w m pk sig in
  exists st',
    response_answers_challenge w sig msg msg_len st =
      ([EvOpen PUBLIC_KEY_PATH fd; EvRead fd 32 32 pk; EvClose fd;
        EvSignOpen m msg_len pk sig ret],
       st', Ret (ret =? 0)) /\
    length pk = 32%nat /\
    fd_lookup fd (fds st') = None /\
    errno st' = errno st /\
    exit_status st' = exit_status st.
Proof.
  cbv zeta.
  assert (L : length (firstn (Z.to_nat sizeof_public_key) avail) = 32%nat)
    by (rewrite length_firstn; unfold sizeof_public_key; lia).
  assert (Hn : negb (Z.of_nat (length (firstn (Z.to_nat sizeof_public_key) avail))
                     =? sizeof_public_key) = false)
    by (rewrite L; reflexivity).
  unfold_program. rewrite Hopen. unfold_program.
  assert (Hfd : (Z.of_N n <? 0) = false) by (apply Z.ltb_ge; lia).
  rewrite Hfd. unfold_program. rewrite fd_lookup_head, Hread. unfold_program.
  rewrite Hn, L. change (Z.of_nat 32 <? 0) with false. unfold_program.
  eexists. split; [reflexivity |].
  cbn [fds errno exit_status set_fds].
  repeat split; [exact L | apply fd_lookup_removed].
Qed.

Lemma response_answers_challenge_result_witness :
  exists st',
    response_answers_challenge
      (sample_world 2000 sample_random (Gives sample_response) 7 None)
      [1; 2] (chars "abc") 2 initial_state =
      ([EvOpen PUBLIC_KEY_PATH 3; EvRead 3 32 32 (repeat 0x5a 32); EvClose 3;
        EvSignOpen (chars "ab") 2 (repeat 0x5a 32) [1; 2] 7],
       st', Ret false).
Proof.
  destruct (response_answers_challenge_result
              (sample_world 2000 sample_random (Gives sample_response) 7 None)
              initial_state [1; 2] (chars "abc") 2 3%N (repeat 0x5a 32)
              eq_refl eq_refl (Nat.le_refl 32))
    as (st' & Hrun & _).
  exists st'. exact Hrun.
Defined.

(* ------------------------------------------------------------------ *)
(** ** What is verified, and what follows from it                      *)

(** X11.  Whenever a session calls the verification primitive, the
    signature it passes is the 64 bytes decoded from the first 128
    characters of a 129-byte response that ends in a line feed, and the
    key is the first 32 bytes of the public key file. *)
Theorem verification_inputs (w : World) (st st' : State)
    (tr : list event) (r : Res bool)
    (Hrun : authenticate w st = (tr, st', r))
    (m : list Z) (mlen : Z) (pk sig : list Z) (ret : Z)
    (Hverify : In (EvSignOpen m mlen pk sig ret) tr) :
  exists response key,
    In (EvRead STDIN_FILENO 256 129 response) (before is_sign_open tr) /\
    length response = 129%nat /\
    nth 128 response 0 = LF /\
    unhexpcpy (firstn 128 response) 64 = Some sig /\
    length sig = 64%nat /\
    Forall is_byte sig /\
    w_read w (File PUBLIC_KEY_PATH) = Gives key /\
    pk = firstn 32 key /\
    length pk = 32%nat.
Proof.
  revert Hrun. exec; intros Hrun; read_run Hrun; in_cases Hverify.
  all: apply EvSignOpen_eq in Hverify;
       destruct Hverify as (Hm & Hl & Hpk & Hsig & Hret).
  all: match goal with
       | Hframe : (_ =? 129) && (nth 128 ?resp 0 =? LF) = true,
         Hdec : unhexpcpy ?resp 64 = Some ?s,
         Hkey : negb (_ =? sizeof_public_key) = false,
         Hk : w_read _ (File PUBLIC_KEY_PATH) = Gives ?key |- _ =>
           destruct (well_framed _ _ Hframe) as [Hn HLF];
           pose proof (key_read_length _ Hkey) as Lk;
           pose proof (unhexpcpy_length _ _ _ Hdec) as Ls;
           pose proof (unhexpcpy_bytes _ _ _ Hdec) as Bs;
           pose proof Hdec as Hfirst;
           rewrite <- (unhexpcpy_firstn resp 64) in Hfirst;
           exists resp, key
       end.
  all: subst pk sig.
  all: rewrite Hn.
  all: repeat split; try assumption; try reflexivity; try lia.
  all: cbn [before is_sign_open]; find_in.
Qed.

Lemma verification_inputs_witness :
  exists response,
    length response = 129%nat /\
    unhexpcpy (firstn 128 response) 64 = Some (repeat 0xaa 64).
Proof.
  pose (w := sample_world 2000 sample_random (Gives sample_response) 0 None).
  pose (m := chars "00f153650102030405060708090a0b0c0d0e0f101112131415161718191a1b1c"
             ++ [LF]).
  assert (Hin : In (EvSignOpen m 65 (repeat 0x5a 32) (repeat 0xaa 64) 0)
                   (fst (fst (authenticate w initial_state))))
    by (vm_compute; do 14 right; left; reflexivity).
  destruct (verification_inputs w initial_state
              (snd (fst (authenticate w initial_state)))
              (fst (fst (authenticate w initial_state)))
              (snd (authenticate w initial_state))
              eq_refl m 65 (repeat 0x5a 32) (repeat 0xaa 64) 0 Hin)
    as (response & key & _ & Hlen & _ & Hdec & _).
  exists response. split; assumption.
Defined.

Lemma challenge_hex_not_granted (n : nat) (hex : list Z) :
  length (hex ++ [LF]) = 65%nat -> firstn n (hex ++ [LF]) = hex ++ [LF] ->
  firstn n (hex ++ [LF]) <> ACCESS_GRANTED.
Proof. intros L -> E. rewrite E in L. discriminate L. Qed.

(** An equation between a write of the session and the grant notice that
    cannot hold. *)
Ltac refute_grant H :=
  apply EvWrite_eq in H;
  let Hfd := fresh "Hfd" in
  let Hd := fresh "Hd" in
  destruct H as [Hfd Hd];
  first
    [ discriminate Hfd
    | lazymatch type of Hd with
      | ?d = _ => is_closed d; vm_compute in Hd; discriminate Hd
      end
    | exfalso; revert Hd;
      match goal with
      | Hneg : negb (_ =? n_random_bytes) = false,
        Hhex : hexpcpy_lower _ _ = Some _ |- _ =>
          destruct (challenge_hex_exact _ _ _ _ Hneg Hhex) as (_ & L & F & _);
          exact (challenge_hex_not_granted _ _ L F)
      end ].

Ltac in_session H :=
  cbn [In] in H;
  repeat (destruct H as [H | H];
          [ first [ discriminate H | refute_grant H | idtac ] |]);
  try contradiction H.

(** X12.  A session grants access exactly when the verification
    primitive accepted: [authenticate] returns true if and only if its
    one call of the primitive returned 0, and if and only if it wrote
    the grant notice, which is then the last thing it did.  It does not
    touch the exit status. *)
Theorem granted_iff_accepted (w : World) (st st' : State)
    (tr : list event) (r : Res bool)
    (Hrun : authenticate w st = (tr, st', r)) :
  (r = Ret true <-> existsb is_accepted tr = true) /\
  (r = Ret true <-> In (EvWrite STDOUT_FILENO ACCESS_GRANTED) tr) /\
  (r = Ret true -> last tr (EvSleep 0) = EvWrite STDOUT_FILENO ACCESS_GRANTED) /\
  (r = Ret true -> never is_fatal tr = true) /\
  exit_status st' = exit_status st.
Proof.
  revert Hrun. exec; intros Hrun; read_run Hrun.
  all: split;
    [ split;
      [ intros Hr; first [ discriminate Hr
                         | cbn [existsb is_accepted orb]; use_tests; reflexivity ]
      | intros Hacc; first [ reflexivity
                           | exfalso; revert Hacc;
                             cbn [existsb is_accepted orb]; use_tests;
                             intros Hacc; discriminate Hacc ] ] |].
  all: split;
    [ split;
      [ intros Hr; first [ discriminate Hr | find_in ]
      | intros Hin; first [ reflexivity | exfalso; in_session Hin ] ] |].
  all: split; [ intros Hr; first [ discriminate Hr | reflexivity ] |].
  all: split; [| reflexivity].
  all: intros Hr; first [ discriminate Hr | idtac ].
  all: unfold never; cbn [forallb is_fatal]; use_tests; reflexivity.
Qed.

Lemma granted_iff_accepted_witness :
  snd (authenticate
         (sample_world 2000 sample_random (Gives sample_response) 0 None)
         initial_state) = Ret true.
Proof.
  pose (w := sample_world 2000 sample_random (Gives sample_response) 0 None).
  destruct (granted_iff_accepted w initial_state
              (snd (fst (authenticate w initial_state)))
              (fst (fst (authenticate w initial_state)))
              (snd (authenticate w initial_state)) eq_refl)
    as ((_ & Hacc) & _).
  apply Hacc. vm_compute. reflexivity.
Defined.

(** X13.  What a session that comes to a verdict has written: on stdout
    the standby notice, a line feed, the label, 64 characters of 0-9a-f,
    a line feed and then the one notice that matches the verdict; on
    stderr nothing. *)
Theorem stdout_protocol (w : World) (st st' : State)
    (tr : list event) (granted : bool)
    (Hrun : authenticate w st = (tr, st', Ret granted)) :
  exists hex,
    length hex = 64%nat /\
    Forall (fun c => is_lower_hex_char c = true) hex /\
    written STDOUT_FILENO tr =
      chars "Standby..." ++ [LF] ++ chars "Challenge: " ++ hex ++ [LF] ++
      (if granted then ACCESS_GRANTED else ACCESS_DENIED) /\
    written STDERR_FILENO tr = [].
Proof.
  revert Hrun. exec; intros Hrun; read_run Hrun.
  all: match goal with
       | Hneg : negb (_ =? n_random_bytes) = false,
         Hhex : hexpcpy_lower _ _ = Some ?l |- _ =>
           destruct (challenge_hex_exact _ _ _ _ Hneg Hhex)
             as (Hlen & _ & Hfirst & Halpha);
           exists l
       end.
  all: split; [exact Hlen |]; split; [exact Halpha |].
  all: rewrite Hfirst; eval_written; rewrite <- ?app_assoc.
  all: split; reflexivity.
Qed.

Lemma stdout_protocol_witness :
  written STDERR_FILENO
    (fst (fst (authenticate
                 (sample_world 2000 sample_random (Gives sample_response) 1 None)
                 initial_state))) = [].
Proof.
  pose (w := sample_world 2000 sample_random (Gives sample_response) 1 None).
  destruct (stdout_protocol w initial_state
              (snd (fst (authenticate w initial_state)))
              (fst (fst (authenticate w initial_state)))
              false eq_refl)
    as (hex & _ & _ & _ & Herr).
  exact Herr.
Defined.

(* ------------------------------------------------------------------ *)
(** ** The way to the shell                                            *)

(** X14.  For a caller who is not root, nothing of the privilege
    transition happens without an accepted signature: any [setgid],
    [setuid] or exec of the shell comes after a call of the verification
    primitive that returned 0. *)
Theorem shell_requires_verification (w : World) (argc : Z)
    (tr : list event) (o : outcome)
    (Hrun : run w argc = (tr, o)) (Huid : w_getuid w <> 0) :
  (existsb is_identity_change tr = true ->
   existsb is_accepted (before is_identity_change tr) = true) /\
  (existsb is_exec tr = true ->
   existsb is_accepted (before is_exec tr) = true) /\
  (o = Replaced SHELL_PATH ["sh"%string] -> existsb is_accepted tr = true).
Proof.
  assert (Huid' : negb (w_getuid w =? 0) = true)
    by (apply negb_true_iff, Z.eqb_neq; exact Huid).
  revert Hrun. unfold run. exec; intros Hrun.
  all: apply pair_equal_spec in Hrun; destruct Hrun as [<- <-].
  all: repeat split; intros H;
       first
         [ discriminate H
         | cbn [existsb is_identity_change is_exec orb] in H; discriminate H
         | cbn [existsb before is_identity_change is_exec is_accepted orb];
           use_tests; reflexivity ].
Qed.

Lemma shell_requires_verification_witness :
  existsb is_accepted
    (fst (run (sample_world 2000 sample_random (Gives sample_response) 0 None) 1))
  = true.
Proof.
  pose (w := sample_world 2000 sample_random (Gives sample_response) 0 None).
  refine (proj2 (proj2 (shell_requires_verification w 1
                          (fst (run w 1)) (snd (run w 1)) eq_refl _)) eq_refl).
  discriminate.
Defined.

(** X15.  The shell is only ever run as root: an exec happens once at
    most, only without arguments and with effective uid 0, and only after
    [setgid( 0 )] and [setuid( 0 )] both succeeded; [setuid] itself is
    only attempted after [setgid( 0 )] succeeded. *)
Theorem shell_requires_root_identity (w : World) (argc : Z)
    (tr : list event) (o : outcome)
    (Hrun : run w argc = (tr, o)) :
  (existsb is_exec tr = true ->
   argc <= 1 /\ w_geteuid w = 0 /\
   In (EvSetgid 0 0) (before is_exec tr) /\
   In (EvSetuid 0 0) (before is_exec tr) /\
   count is_exec tr = 1%nat) /\
  (forall uid ret, In (EvSetuid uid ret) tr ->
     uid = 0 /\ In (EvSetgid 0 0) tr).
Proof.
  revert Hrun. unfold run. exec; intros Hrun.
  all: apply pair_equal_spec in Hrun; destruct Hrun as [<- <-].
  all: split;
    [ intros H;
      first
        [ cbn [existsb is_exec orb] in H; discriminate H
        | repeat match goal with
                 | T : (_ >? 1) = false |- _ =>
                     rewrite Z.gtb_ltb in T; apply Z.ltb_ge in T
                 | T : negb (w_geteuid _ =? 0) = false |- _ =>
                     apply negb_false_iff, Z.eqb_eq in T
                 end;
          cbn [before is_exec];
          repeat split; try assumption; try reflexivity; find_in ]
    | intros uid ret H; in_cases H;
      inversion H; subst; split; try reflexivity; find_in ].
Qed.

Lemma shell_requires_root_identity_witness :
  In (EvSetuid 0 0)
     (before is_exec
        (fst (run (sample_world 0 sample_random (Gives sample_response) 0 None) 1))).
Proof.
  pose (w := sample_world 0 sample_random (Gives sample_response) 0 None).
  destruct (shell_requires_root_identity w 1 (fst (run w 1)) (snd (run w 1))
              eq_refl) as [Hexec _].
  destruct (Hexec eq_refl) as (_ & _ & _ & Hsetuid & _).
  exact Hsetuid.
Defined.

(** X16.  When the program does not run with effective uid 0 (it is not
    installed set-uid root), the whole run is the uid query, one message
    on stderr and the fatal exit: no challenge is issued and no identity
    change is attempted. *)
Theorem not_setuid_root_is_fatal (w : World) (argc : Z)
    (Hargs : argc <= 1) (Heuid : w_geteuid w <> 0) :
  run w argc =
    ([EvGeteuid (w_geteuid w);
      EvWrite STDERR_FILENO (FAIL_msg "not running as root (is it setuid?)");
      EvExit 125],
     Exited 125).
Proof.
  pose proof (no_arguments argc Hargs) as Hno_args.
  apply Z.eqb_neq in Heuid.
  unfold run. unfold_program. rewrite Hno_args. unfold_program.
  rewrite Heuid. reflexivity.
Qed.

Lemma not_setuid_root_is_fatal_witness :
  run unprivileged_world 1 =
    ([EvGeteuid 2000;
      EvWrite STDERR_FILENO (FAIL_msg "not running as root (is it setuid?)");
      EvExit 125],
     Exited 125).
Proof.
  refine (not_setuid_root_is_fatal unprivileged_world 1 _ _);
    [lia | discriminate].
Defined.

(** X17.  Stderr tells the two kinds of ending apart: nothing is written
    to it when the session denies access or the shell takes over, and
    every other ending leaves on it one line that starts with the
    program name. *)
Theorem fatal_exits_are_diagnosed (w : World) (argc : Z)
    (tr : list event) (o : outcome)
    (Hrun : run w argc = (tr, o)) :
  (written STDERR_FILENO tr = [] <->
   o = Exited 1 \/ o = Replaced SHELL_PATH ["sh"%string]) /\
  (forall status, o = Exited status -> status <> 1 ->
     exists body, written STDERR_FILENO tr = chars "su: " ++ body ++ [LF]).
Proof.
  revert Hrun. unfold run. exec; intros Hrun.
  all: apply pair_equal_spec in Hrun; destruct Hrun as [<- <-].
  all: eval_written.
  all: split;
    [ split;
      [ intros H; first [ right; reflexivity | left; reflexivity
                        | exfalso; vm_compute in H; discriminate H ]
      | intros [H | H]; first [ reflexivity | discriminate H ] ]
    | intros status H Hne;
      first [ discriminate H
            | exfalso; apply Hne; inversion H; reflexivity
            | rewrite ?ERROR_text, ?FAIL_text; eexists; reflexivity ] ].
Qed.

Lemma fatal_exits_are_diagnosed_witness :
  exists body,
    written STDERR_FILENO (fst (run unprivileged_world 1)) =
    chars "su: " ++ body ++ [LF].
Proof.
  refine (proj2 (fatal_exits_are_diagnosed unprivileged_world 1
                   (fst (run unprivileged_world 1))
                   (snd (run unprivileged_world 1)) eq_refl)
            125 eq_refl _).
  discriminate.
Defined.

(** X18.  No descriptor of the program leaks into the shell: when the
    process image is replaced, every file the program opened has been
    closed again, and the descriptor table refers to no file. *)
Theorem no_descriptor_leak (w : World) (argc : Z)
    (tr : list event) (st : State) (file : string) (argv : list string)
    (Hrun : main w argc initial_state = (tr, st, Halt (Replaced file argv))) :
  forallb (fun entry => negb (refers_to_file entry)) (fds st) = true /\
  count is_open tr = count is_close tr.
Proof.
  revert Hrun. exec; intros Hrun; read_run Hrun.
  all: cbn [fds set_fds set_errno set_exit_status].
  all: rewrite ?fd_remove_head.
  all: split; [repeat apply fd_remove_no_files; reflexivity | reflexivity].
Qed.

Lemma no_descriptor_leak_witness :
  forallb (fun entry => negb (refers_to_file entry))
    (fds (snd (fst (main (sample_world 2000 sample_random
                            (Gives sample_response) 0 None)
                         1 initial_state)))) = true.
Proof.
  pose (w := sample_world 2000 sample_random (Gives sample_response) 0 None).
  exact (proj1 (no_descriptor_leak w 1
                  (fst (fst (main w 1 initial_state)))
                  (snd (fst (main w 1 initial_state)))
                  SHELL_PATH ["sh"%string] eq_refl)).
Defined.

(* ------------------------------------------------------------------ *)
(** ** The challenge line                                              *)

Lemma native_u32_is_bytes be x : Forall is_byte (native_u32 be x).
Proof.
  assert (H : forall y, is_byte (Z.land y 0xff)).
  { intros y. change 0xff with (Z.ones 8). rewrite Z.land_ones by lia.
    apply Z.mod_pos_bound. reflexivity. }
  unfold native_u32. destruct be; repeat constructor; apply H.
Qed.

Lemma Forall_firstn {A} (P : A -> Prop) (n : nat) (l : list A) :
  Forall P l -> Forall P (firstn n l).
Proof.
  intros H. revert n. induction H as [| x l Hx Hl IH]; intros [| n];
    cbn [firstn]; constructor; auto.
Qed.

(** Decoding what the encoder wrote for a sequence of bytes, with
    anything after it, gives the bytes. *)
Lemma unhexpcpy_hexpcpy_lower (b h rest : list Z) :
  Forall is_byte b ->
  hexpcpy_lower b (length b) = Some h ->
  unhexpcpy (h ++ rest) (length b) = Some b.
Proof.
  intros Hb. revert h. induction Hb as [| c b Hc Hb IH]; intros h E.
  - reflexivity.
  - cbn [length hexpcpy_lower] in E.
    destruct (hexpcpy_lower b (length b)) as [h' |]; [| discriminate E].
    apply Some_eq in E. subst h.
    cbn [length app unhexpcpy]. rewrite (IH h' eq_refl).
    now rewrite (byte_roundtrip c Hc).
Qed.

(** X19.  The challenge line can be read back: when the random source
    delivers bytes, the 65 bytes a session prints after the label decode
    (the line feed left aside) to the challenge itself, the four bytes of
    the time followed by the 28 random bytes. *)
Theorem printed_challenge_decodes (w : World) (st st' : State)
    (tr : list event) (r : Res bool) (avail : list Z)
    (Hrun : authenticate w st = (tr, st', r))
    (Hrandom : w_read w (File RANDOM_PATH) = Gives avail)
    (Hbytes : Forall is_byte avail)
    (line : list Z)
    (Hline : In (EvWrite STDOUT_FILENO line) tr)
    (Hlen : length line = 65%nat) :
  unhexpcpy line 32 =
    Some (native_u32 (w_big_endian w) (to_u32 (w_time w)) ++ firstn 28 avail) /\
  nth 64 line 0 = LF.
Proof.
  revert Hrun. exec; intros Hrun; read_run Hrun; in_cases Hline.
  all: apply EvWrite_eq in Hline; destruct Hline as [_ Hline]; subst line.
  all: try (exfalso; vm_compute in Hlen; discriminate Hlen).
  all: match goal with
       | Hneg : negb (_ =? n_random_bytes) = false,
         Hhex : hexpcpy_lower ?c _ = Some ?l |- _ =>
           destruct (challenge_hex_exact _ _ _ _ Hneg Hhex)
             as (L & _ & Hfirst & _);
           pose proof (random_read_length _ Hneg) as Lr;
           rewrite Hfirst;
           assert (Lc : length c = 32%nat)
             by (rewrite length_app, native_u32_length, Lr; reflexivity);
           change (Z.to_nat challenge_size) with 32%nat in Hhex;
           rewrite <- Lc in Hhex;
           split;
           [ rewrite <- Lc;
             apply unhexpcpy_hexpcpy_lower;
             [ apply Forall_app; split;
               [ apply native_u32_is_bytes | apply Forall_firstn; assumption ]
             | exact Hhex ]
           | rewrite app_nth2 by lia; rewrite L; reflexivity ]
       end.
Qed.

Lemma printed_challenge_decodes_witness :
  unhexpcpy
    (chars "00f153650102030405060708090a0b0c0d0e0f101112131415161718191a1b1c"
     ++ [LF]) 32 =
  Some ([0x00; 0xf1; 0x53; 0x65] ++ map Z.of_nat (seq 1 28)).
Proof.
  pose (w := sample_world 2000 sample_random (Gives sample_response) 0 None).
  pose (line := chars "00f153650102030405060708090a0b0c0d0e0f101112131415161718191a1b1c"
                ++ [LF]).
  assert (Hin : In (EvWrite STDOUT_FILENO line)
                   (fst (fst (authenticate w initial_state))))
    by (vm_compute; do 8 right; left; reflexivity).
  assert (Hbytes : Forall is_byte (map Z.of_nat (seq 1 40))).
  { apply Forall_forall. intros x Hx. apply in_map_iff in Hx.
    destruct Hx as (k & <- & Hk). apply in_seq in Hk. unfold is_byte. lia. }
  exact (proj1 (printed_challenge_decodes w initial_state
                  (snd (fst (authenticate w initial_state)))
                  (fst (fst (authenticate w initial_state)))
                  (snd (authenticate w initial_state))
                  (map Z.of_nat (seq 1 40))
                  eq_refl eq_refl Hbytes line Hin eq_refl)).
Defined.

(** X20.  An accepted signature gets the shell: once the verification
    primitive has returned 0, the process image is replaced by the shell
    whenever [setgid( 0 )], [setuid( 0 )] and the exec succeed; nothing
    else stands in the way. *)
Theorem accepted_signature_gets_shell (w : World) (argc : Z)
    (tr : list event) (o : outcome)
    (Hrun : run w argc = (tr, o))
    (Haccepted : existsb is_accepted tr = true)
    (Hsetgid : w_setgid w 0 = None)
    (Hsetuid : w_setuid w 0 = None)
    (Hexec : w_execlp w SHELL_PATH = None) :
  o = Replaced SHELL_PATH ["sh"%string] /\
  In (EvWrite STDOUT_FILENO ACCESS_GRANTED) (before is_identity_change tr) /\
  last tr (EvSleep 0) = EvExeclp SHELL_PATH ["sh"%string] None.
Proof.
  revert Hrun Haccepted. unfold run. exec; intros Hrun.
  all: apply pair_equal_spec in Hrun; destruct Hrun as [<- <-].
  all: cbn [existsb is_accepted orb]; use_tests; intros Haccepted;
       try discriminate Haccepted.
  all: repeat split; cbn [before is_identity_change]; find_in.
Qed.

Lemma accepted_signature_gets_shell_witness :
  snd (run (sample_world 2000 sample_random (Gives sample_response) 0 None) 1)
  = Replaced SHELL_PATH ["sh"%string].
Proof.
  pose (w := sample_world 2000 sample_random (Gives sample_response) 0 None).
  exact (proj1 (accepted_signature_gets_shell w 1 (fst (run w 1)) (snd (run w 1))
                  eq_refl eq_refl eq_refl eq_refl eq_refl)).
Defined.
